(** * AISurvivalKit: session lifecycle, model store and UI controllers

  A shallow embedding of the TypeScript glue code of the application:

  - [LlamaService]    (src/services/LlamaService.ts)   the inference session manager;
  - [ModelUtils]      (utils/modelUtils)                the model registry and store;
  - [ModelDownloader] (components/ModelDownloader)      the download UI controller;
  - [AIChat]          (components/AIChat)               the chat controller.

  The code is asynchronous but single threaded.  Every [await] is a call
  into an external collaborator (the llama.rn engine, react-native-fs,
  the alert dialogs).  The result that collaborator gives to a call is an
  explicit argument of the embedded method, and the state of the
  collaborator (live engine handles, files on disk) is threaded through
  explicitly.  A rejected promise and a thrown exception are the same
  thing to an [await] inside [try], so both are [Throw].

  Console output has no influence on state or results and is left out.
  A JavaScript number is a double: a rational, one of the two infinities
  or NaN.  Division and multiplication round their exact result to the
  nearest double, ties to even ([toDouble]); the two zeros are not told
  apart, and a decimal literal of the source that takes no part in
  arithmetic (0.7) is written as the decimal it denotes.  A string is a
  sequence of code units, each below 256. *)

From Stdlib Require Import ZArith QArith Qround Lqa Floats String Ascii List Lia.
From stdpp Require Import gmap strings.

Local Open Scope string_scope.

(** ** JavaScript values used by the code *)

Module JS.

(** A JS [number]. *)
Inductive number : Type :=
| Fin (q : Q)
| PosInf
| NegInf
| NaN.

Definition of_Z (z : Z) : number := Fin (inject_Z z).

(** Errors that travel through [throw] and rejected promises. *)
Inductive Error : Type :=
| NotInitialized                 (* 'LLaMA context not initialized. Call init() first.' *)
| DownloadFailed (statusCode : Z) (* `Download failed with status code ${statusCode}` *)
| Foreign (message : string).    (* raised inside an external library *)

(** How a call (or an awaited promise) completes. *)
Inductive result (A : Type) : Type :=
| Ok (a : A)
| Throw (e : Error).
Arguments Ok {A} a.
Arguments Throw {A} e.

(** An own property of an object literal of a [Partial<...>] type: the key
    may be missing, or present with a value that may be [undefined]. *)
Inductive field (A : Type) : Type :=
| Absent
| Present (v : option A).
Arguments Absent {A}.
Arguments Present {A} v.

(** [{ ...d, ...o }] at one key. *)
Definition spread {A : Type} (d : option A) (o : field A) : option A :=
  match o with
  | Absent => d
  | Present v => v
  end.

(** Truthiness. *)
Definition truthy_number (n : number) : bool :=
  match n with
  | Fin q => negb (Qnum q =? 0)%Z
  | PosInf | NegInf => true
  | NaN => false
  end.

Definition truthy_string (s : string) : bool := negb (String.eqb s "").

Definition truthy_opt {A : Type} (truthy : A -> bool) (v : option A) : bool :=
  match v with
  | Some a => truthy a
  | None => false
  end.

(** [v || d] where [v] may be [undefined] and [d] is a number. *)
Definition or_number (v : option number) (d : number) : number :=
  match v with
  | Some n => if truthy_number n then n else d
  | None => d
  end.

(** *** Arithmetic on doubles *)

(** [2^e] for any integer [e]. *)
Definition pow2 (e : Z) : Q :=
  if (0 <=? e)%Z then inject_Z (2 ^ e) else 1 # Z.to_pos (2 ^ (- e)).

(** The integer nearest to [x], the even one of two that are as near. *)
Definition roundTiesToEven (x : Q) : Z :=
  let f := Qfloor x in
  match Qcompare (x - inject_Z f) (1 # 2) with
  | Lt => f
  | Gt => (f + 1)%Z
  | Eq => if Z.even f then f else (f + 1)%Z
  end.

(** The exponent of the last bit of the 53-bit significand of the double
    nearest to a positive [q]: [floor (log2 q) - 52], and -1074 for the
    subnormal numbers. *)
Definition ulpExponent (q : Q) : Z :=
  let k := (Z.log2 (Qnum q) - Z.log2 (Zpos (Qden q)))%Z in
  let floorLog2 := if Qle_bool (pow2 k) q then k else (k - 1)%Z in
  Z.max (floorLog2 - 52) (-1074).

(** The double nearest to a positive [q]; what reaches [2^1024] is
    infinite. *)
Definition roundPositive (q : Q) : number :=
  let e := ulpExponent q in
  let m := roundTiesToEven (q / pow2 e) in
  let r := Qred (inject_Z m * pow2 e) in
  if Qle_bool (pow2 1024) r then PosInf else Fin r.

(** The double nearest to [q] (IEEE 754 binary64, round to nearest, ties to
    even): the result of an arithmetic operation whose exact value is [q]. *)
Definition toDouble (q : Q) : number :=
  match Qcompare q 0 with
  | Eq => Fin 0
  | Gt => roundPositive q
  | Lt =>
      match roundPositive (- q) with
      | Fin r => Fin (- r)
      | _ => NegInf
      end
  end.

(** [a / b] on integral byte counts. *)
Definition div_Z (a b : Z) : number :=
  if (b =? 0)%Z then
    if (a =? 0)%Z then NaN else if (0 <? a)%Z then PosInf else NegInf
  else toDouble (inject_Z a / inject_Z b).

(** [x * k] for a finite non-zero constant [k]. *)
Definition mul_const (x : number) (k : Q) : number :=
  match x with
  | Fin q => toDouble (q * k)
  | PosInf => if Qlt_le_dec 0 k then PosInf else NegInf
  | NegInf => if Qlt_le_dec 0 k then NegInf else PosInf
  | NaN => NaN
  end.

(** [Math.round]: the integer nearest to a double, halves towards plus
    infinity.  The result is an integer and a double, so nothing is rounded
    a second time. *)
Definition Math_round (x : number) : number :=
  match x with
  | Fin q => of_Z (Qfloor (q + (1 # 2)))
  | other => other
  end.

(** The same two operations in the binary64 numbers of the kernel, for
    byte counts below [2^53], which those numbers hold exactly. *)
Definition ofSpecFloat (f : spec_float) : number :=
  match f with
  | S754_zero _ => Fin 0
  | S754_finite sign m e =>
      Fin ((if sign then - inject_Z (Zpos m) else inject_Z (Zpos m)) * pow2 e)
  | S754_infinity sign => if sign then NegInf else PosInf
  | S754_nan => NaN
  end.

Definition kernelFloat (z : Z) : float := PrimFloat.of_uint63 (Uint63.of_Z z).

Definition kernelQuotient (a b : Z) : number :=
  ofSpecFloat (Prim2SF (PrimFloat.div (kernelFloat a) (kernelFloat b))).

Definition kernelPercentage (a b : Z) : number :=
  ofSpecFloat
    (Prim2SF (PrimFloat.mul (PrimFloat.div (kernelFloat a) (kernelFloat b))
                (kernelFloat 100))).

Definition sameNumber (x y : number) : bool :=
  match x, y with
  | Fin a, Fin b => Qeq_bool a b
  | PosInf, PosInf | NegInf, NegInf | NaN, NaN => true
  | _, _ => false
  end.

(** *** Strings *)

Definition LF : string := String (ascii_of_nat 10) "".

Fixpoint drop (n : nat) (s : string) : string :=
  match n, s with
  | O, _ => s
  | S n', String _ s' => drop n' s'
  | S _, EmptyString => EmptyString
  end.

(** The text before and after the first occurrence of [pat] in [s]
    ([String.prototype.indexOf] followed by the two slices). *)
Fixpoint split_first (pat s : string) : option (string * string) :=
  if String.prefix pat s then Some ("", drop (String.length pat) s)
  else
    match s with
    | EmptyString => None
    | String c s' =>
        match split_first pat s' with
        | Some (before, after) => Some (String c before, after)
        | None => None
        end
    end.

(** ECMAScript [GetSubstitution] for a string pattern (no capture groups,
    no named groups): [$$], [$&], [$`] and [$'] are expanded, every other
    use of [$] stands for itself. *)
Fixpoint GetSubstitution (matched before after replacement : string) : string :=
  match replacement with
  | EmptyString => ""
  | String c r =>
      if Ascii.eqb c "$" then
        match r with
        | EmptyString => String c ""
        | String d r' =>
            if Ascii.eqb d "$" then String "$" (GetSubstitution matched before after r')
            else if Ascii.eqb d "&" then matched ++ GetSubstitution matched before after r'
            else if Ascii.eqb d "`" then before ++ GetSubstitution matched before after r'
            else if Ascii.eqb d "'" then after ++ GetSubstitution matched before after r'
            else String c (GetSubstitution matched before after r)
        end
      else String c (GetSubstitution matched before after r)
  end.

(** The strings without a dollar sign. *)
Fixpoint dollar_free (s : string) : bool :=
  match s with
  | EmptyString => true
  | String c s' => negb (Ascii.eqb c "$") && dollar_free s'
  end.

(** [s.replace(pat, replacement)] with a string [pat]: only the first
    occurrence is replaced. *)
Definition replace (s pat replacement : string) : string :=
  match split_first pat s with
  | Some (before, after) => before ++ GetSubstitution pat before after replacement ++ after
  | None => s
  end.

(** [String.prototype.trim].  Among the code units below 256 the white
    space and line terminators of ECMAScript are 9 to 13 (tab, line feed,
    vertical tab, form feed, carriage return), 32 (space) and 160 (no-break
    space); the others (U+1680, U+2000 to U+200A, U+2028, U+2029, U+202F,
    U+205F, U+3000, U+FEFF) are not code units of these strings. *)
Definition is_space (c : ascii) : bool :=
  let n := nat_of_ascii c in
  ((9 <=? n) && (n <=? 13) || (n =? 32) || (n =? 160))%nat.

Fixpoint trimStart (s : string) : string :=
  match s with
  | EmptyString => ""
  | String c s' => if is_space c then trimStart s' else s
  end.

Fixpoint trimEnd (s : string) : string :=
  match s with
  | EmptyString => ""
  | String c s' =>
      let r := trimEnd s' in
      if is_space c && String.eqb r "" then "" else String c r
  end.

Definition trim (s : string) : string := trimEnd (trimStart s).

(** [s.endsWith(suffix)]. *)
Definition endsWith (s suffix : string) : bool :=
  (String.length suffix <=? String.length s)%nat
  && String.eqb (drop (String.length s - String.length suffix) s) suffix.

(** The first and the last code unit of a string. *)
Definition first_unit (s : string) : option ascii :=
  match s with
  | EmptyString => None
  | String c _ => Some c
  end.

Fixpoint last_unit (s : string) : option ascii :=
  match s with
  | EmptyString => None
  | String c EmptyString => Some c
  | String _ s' => last_unit s'
  end.

End JS.

(** ** The llama.rn engine, as far as the service uses it *)

Module LlamaRn.
Import JS.

(** A [LlamaContext] object, identified by the order of its creation. *)
Definition LlamaContext : Type := nat.

Record InitParams : Type := {
  model : string;
  n_ctx : option number;
  n_gpu_layers : option number;
  use_mlock : option bool
}.

Record CompletionParams : Type := {
  prompt : string;
  n_predict : number;
  temperature : number;
  stop : list string
}.

Inductive Call : Type :=
| CallInit (p : InitParams)
| CallCompletion (ctx : LlamaContext) (p : CompletionParams)
| CallRelease (ctx : LlamaContext).

(** The engine: the contexts it holds that were not released, the next
    context it will hand out, and the calls it received, oldest first. *)
Record Engine : Type := {
  live : list LlamaContext;
  next : LlamaContext;
  calls : list Call
}.

Definition fresh : Engine := {| live := []; next := O; calls := [] |}.

(** [initLlama(params)]: [outcome] says whether the engine manages to
    load the model. *)
Definition initLlama (p : InitParams) (outcome : result unit) (e : Engine)
  : result LlamaContext * Engine :=
  match outcome with
  | Ok _ =>
      (Ok (next e),
       {| live := next e :: live e; next := S (next e); calls := (calls e ++ [CallInit p])%list |})
  | Throw err =>
      (Throw err, {| live := live e; next := next e; calls := (calls e ++ [CallInit p])%list |})
  end.

(** [ctx.completion(params)]: the text comes from the model. *)
Definition completion (ctx : LlamaContext) (p : CompletionParams)
    (outcome : result string) (e : Engine) : result string * Engine :=
  (outcome,
   {| live := live e; next := next e; calls := (calls e ++ [CallCompletion ctx p])%list |}).

(** [ctx.release()]: a context whose release fails is still held. *)
Definition release (ctx : LlamaContext) (outcome : result unit) (e : Engine)
  : result unit * Engine :=
  match outcome with
  | Ok _ =>
      (Ok tt,
       {| live := List.filter (fun c => negb (Nat.eqb c ctx)) (live e);
          next := next e; calls := (calls e ++ [CallRelease ctx])%list |})
  | Throw err =>
      (Throw err, {| live := live e; next := next e; calls := (calls e ++ [CallRelease ctx])%list |})
  end.

End LlamaRn.

(** ** src/services/LlamaService.ts *)

Module LlamaService.
Import JS.
Import LlamaRn(LlamaContext, Engine).

Record LlamaOptions : Type := {
  modelPath : string;
  promptTemplate : option string;
  temperature : option number;
  maxTokens : option number;
  contextSize : option number;
  gpuLayers : option number;
  useMLock : option bool
}.

(** [Partial<LlamaOptions>], as an object literal. *)
Record PartialLlamaOptions : Type := {
  modelPath' : field string;
  promptTemplate' : field string;
  temperature' : field number;
  maxTokens' : field number;
  contextSize' : field number;
  gpuLayers' : field number;
  useMLock' : field bool
}.

(** [{}]. *)
Definition no_options : PartialLlamaOptions :=
  {| modelPath' := Absent; promptTemplate' := Absent; temperature' := Absent;
     maxTokens' := Absent; contextSize' := Absent; gpuLayers' := Absent;
     useMLock' := Absent |}.

(** The value of [{ ...this.defaultOptions, ...options }]: any key may now
    hold [undefined]. *)
Record MergedOptions : Type := {
  mergedModelPath : option string;
  mergedPromptTemplate : option string;
  mergedTemperature : option number;
  mergedMaxTokens : option number;
  mergedContextSize : option number;
  mergedGpuLayers : option number;
  mergedUseMLock : option bool
}.

Definition merge (d : LlamaOptions) (options : option PartialLlamaOptions) : MergedOptions :=
  let o := match options with Some o => o | None => no_options end in
  {| mergedModelPath := spread (Some (modelPath d)) (modelPath' o);
     mergedPromptTemplate := spread (promptTemplate d) (promptTemplate' o);
     mergedTemperature := spread (temperature d) (temperature' o);
     mergedMaxTokens := spread (maxTokens d) (maxTokens' o);
     mergedContextSize := spread (contextSize d) (contextSize' o);
     mergedGpuLayers := spread (gpuLayers d) (gpuLayers' o);
     mergedUseMLock := spread (useMLock d) (useMLock' o) |}.

(** The private fields of the class. *)
Record t : Type := {
  isInitialized : bool;
  context : option LlamaContext;
  defaultOptions : LlamaOptions
}.

Definition initialDefaultOptions : LlamaOptions :=
  {| modelPath := "";
     promptTemplate :=
       Some ("<start_of_turn>user" ++ LF ++ "{prompt}<end_of_turn>" ++ LF
             ++ "<start_of_turn>model" ++ LF);
     temperature := Some (Fin 0.7);
     maxTokens := Some (of_Z 512);
     contextSize := Some (of_Z 2048);
     gpuLayers := Some (of_Z 0);
     useMLock := Some true |}.

(** [new LlamaService()]. *)
Definition new : t :=
  {| isInitialized := false; context := None; defaultOptions := initialDefaultOptions |}.

Definition setModelPath (p : string) (d : LlamaOptions) : LlamaOptions :=
  {| modelPath := p;
     promptTemplate := promptTemplate d;
     temperature := temperature d;
     maxTokens := maxTokens d;
     contextSize := contextSize d;
     gpuLayers := gpuLayers d;
     useMLock := useMLock d |}.

(** [async init(options?)]. *)
Definition init (options : option PartialLlamaOptions) (engine : result unit)
    (this : t) (e : Engine) : bool * t * Engine :=
  let mergedOptions := merge (defaultOptions this) options in
  match mergedModelPath mergedOptions with
  | Some path =>
      if truthy_string path then
        match LlamaRn.initLlama
                {| LlamaRn.model := path;
                   LlamaRn.n_ctx := mergedContextSize mergedOptions;
                   LlamaRn.n_gpu_layers := mergedGpuLayers mergedOptions;
                   LlamaRn.use_mlock := mergedUseMLock mergedOptions |} engine e with
        | (Ok ctx, e') =>
            (true,
             {| isInitialized := true;
                context := Some ctx;
                defaultOptions := setModelPath path (defaultOptions this) |},
             e')
        | (Throw _, e') =>
            (false,
             {| isInitialized := false;
                context := None;
                defaultOptions := defaultOptions this |},
             e')
        end
      else (false, this, e)
  | None => (false, this, e)
  end.

Definition stopWords : list string :=
  ["<end_of_turn>"; "</s>"; "<|eot_id|>"; "User:"; "Llama:"].

(** The prompt as it is sent to the engine. *)
Definition formatPrompt (mergedOptions : MergedOptions) (prompt : string) : string :=
  match mergedPromptTemplate mergedOptions with
  | Some template =>
      if truthy_string template then replace template "{prompt}" prompt else prompt
  | None => prompt
  end.

(** [async generateResponse(prompt, options?)]. *)
Definition generateResponse (prompt : string) (options : option PartialLlamaOptions)
    (engine : result string) (this : t) (e : Engine) : result string * Engine :=
  match isInitialized this, context this with
  | true, Some ctx =>
      let mergedOptions := merge (defaultOptions this) options in
      let formattedPrompt := formatPrompt mergedOptions prompt in
      match LlamaRn.completion ctx
              {| LlamaRn.prompt := formattedPrompt;
                 LlamaRn.n_predict := or_number (mergedMaxTokens mergedOptions) (of_Z 512);
                 LlamaRn.temperature := or_number (mergedTemperature mergedOptions) (Fin 0.7);
                 LlamaRn.stop := stopWords |} engine e with
      | (Ok text, e') => (Ok (trim text), e')
      | (Throw error, e') => (Throw error, e')
      end
  | _, _ => (Throw NotInitialized, e)
  end.

(** [async cleanup()]. *)
Definition cleanup (engine : result unit) (this : t) (e : Engine)
  : result unit * t * Engine :=
  match context this with
  | Some ctx =>
      match LlamaRn.release ctx engine e with
      | (Ok _, e') =>
          (Ok tt,
           {| isInitialized := false;
              context := None;
              defaultOptions := defaultOptions this |},
           e')
      | (Throw _, e') => (Ok tt, this, e')
      end
  | None => (Ok tt, this, e)
  end.

(** The two states of the manager, with the test [generateResponse] makes. *)
Definition Ready (this : t) : Prop :=
  isInitialized this = true /\ exists ctx, context this = Some ctx.

Definition Uninitialized (this : t) : Prop :=
  isInitialized this = false \/ context this = None.

(** The manager owns the engine's only live context, if it holds one. *)
Definition owns (this : t) (e : Engine) : Prop :=
  LlamaRn.live e = match context this with Some ctx => [ctx] | None => [] end.

(** A call of [init] that gives no [modelPath] key. *)
Definition omitsModelPath (options : option PartialLlamaOptions) : Prop :=
  match options with
  | Some o => modelPath' o = Absent
  | None => True
  end.

(** The completion requests among the calls an engine received. *)
Definition completions (e : Engine) : list LlamaRn.CompletionParams :=
  omap (fun c => match c with LlamaRn.CallCompletion _ p => Some p | _ => None end)
       (LlamaRn.calls e).

Definition releases (e : Engine) : list LlamaContext :=
  omap (fun c => match c with LlamaRn.CallRelease ctx => Some ctx | _ => None end)
       (LlamaRn.calls e).

(** The calls a user of the service can make, each with the answer of the
    engine, and their effect on the service and the engine. *)
Inductive Op : Type :=
| DoInit (options : option PartialLlamaOptions) (engine : result unit)
| DoGenerate (prompt : string) (options : option PartialLlamaOptions) (engine : result string)
| DoCleanup (engine : result unit).

Definition step (st : t * Engine) (op : Op) : t * Engine :=
  let '(this, e) := st in
  match op with
  | DoInit options engine =>
      let '(_, this', e') := init options engine this e in (this', e')
  | DoGenerate prompt options engine =>
      (this, (generateResponse prompt options engine this e).2)
  | DoCleanup engine =>
      let '(_, this', e') := cleanup engine this e in (this', e')
  end.

Definition run (ops : list Op) (st : t * Engine) : t * Engine := fold_left step ops st.

(** What holds of the manager and the engine between two calls. *)
Definition wellFormed (st : t * Engine) : Prop :=
  (Ready st.1 \/ (isInitialized st.1 = false /\ context st.1 = None))
  /\ forall ctx, context st.1 = Some ctx -> ctx ∈ LlamaRn.live st.2.

(** A completion request whose sampling parameters are truthy. *)
Definition samplingUsable (p : LlamaRn.CompletionParams) : Prop :=
  truthy_number (LlamaRn.temperature p) = true
  /\ truthy_number (LlamaRn.n_predict p) = true.

End LlamaService.

(** ** react-native-fs, as far as the model store uses it *)

Module RNFS.
Import JS.

(** What is on disk (the paths that exist, files and directories alike)
    and the transfers that were started, oldest first, each with its
    source URL and its target path. *)
Record Disk : Type := {
  paths : gset string;
  transfers : list (string * string)
}.

(** [RNFS.exists(path)]; [fault] is the I/O error of this call, if any. *)
Definition exists_ (path : string) (fault : option Error) (d : Disk) : result bool :=
  match fault with
  | Some err => Throw err
  | None => Ok (bool_decide (path ∈ paths d))
  end.

(** [RNFS.mkdir(path)]. *)
Definition mkdir (path : string) (fault : option Error) (d : Disk) : result unit * Disk :=
  match fault with
  | Some err => (Throw err, d)
  | None => (Ok tt, {| paths := {[path]} ∪ paths d; transfers := transfers d |})
  end.

(** One report of the transport to the [progress] callback. *)
Record DownloadProgress : Type := {
  bytesWritten : Z;
  contentLength : Z
}.

(** What the network does with one transfer: the reports it makes while
    the transfer runs, then the status code it resolves with (or the
    error it rejects with). *)
Record Transfer : Type := {
  reports : list DownloadProgress;
  outcome : result Z
}.

(** [RNFS.downloadFile({fromUrl, toFile, progress, ...}).promise].  The
    target file is written when the server answers with a 2xx status. *)
Definition downloadFile (fromUrl toFile : string) (net : Transfer) (d : Disk)
  : result Z * Disk :=
  let started := (transfers d ++ [(fromUrl, toFile)])%list in
  match outcome net with
  | Ok statusCode =>
      (Ok statusCode,
       {| paths := if ((200 <=? statusCode) && (statusCode <? 300))%Z
                   then {[toFile]} ∪ paths d else paths d;
          transfers := started |})
  | Throw err => (Throw err, {| paths := paths d; transfers := started |})
  end.

(** An entry of a directory listing: [name] and [isFile()]. *)
Record ReadDirItem : Type := {
  name : string;
  isFile : bool
}.

(** [RNFS.readDir(path)]; [listing] is what the file system answers. *)
Definition readDir (path : string) (listing : result (list ReadDirItem)) (d : Disk)
  : result (list ReadDirItem) :=
  listing.

End RNFS.

(** ** utils/modelUtils *)

Module ModelUtils.
Import JS.
Import RNFS(Disk).

Record ModelInfo : Type := {
  name : string;
  size : string;
  url : string;
  localPath : string
}.

Definition availableModels : list ModelInfo :=
  [ {| name := "Gemma 2B Instruct";
       size := "1.57GB";
       url := "https://huggingface.co/lmstudio-community/gemma-2-2b-it-GGUF/resolve/main/gemma-2-2b-it-IQ4_XS.gguf";
       localPath := "gemma-2-2b-it-IQ4_XS.gguf" |};
    {| name := "Phi-2 (Small)";
       size := "1.7GB";
       url := "https://huggingface.co/TheBloke/phi-2-GGUF/resolve/main/phi-2.Q4_K_M.gguf";
       localPath := "phi-2.Q4_K_M.gguf" |} ].

(** [Platform.OS] and the two directories react-native-fs exports. *)
Record Platform : Type := {
  OS : string;
  DocumentDirectoryPath : string;
  ExternalDirectoryPath : string
}.

(** The I/O errors met by the calls one [downloadModel] makes, in the order
    of the calls, and what the network does if a transfer is started. *)
Record IO : Type := {
  existsDirFault : option Error;
  mkdirFault : option Error;
  existsFileFault : option Error;
  network : RNFS.Transfer
}.

Section OnPlatform.
Variable platform : Platform.

Definition getModelsDir : string :=
  let documentsDir :=
    if String.eqb (OS platform) "ios"
    then DocumentDirectoryPath platform
    else ExternalDirectoryPath platform in
  documentsDir ++ "/models".

Definition checkModelExists (modelFileName : string) (fault : option Error) (d : Disk)
  : bool :=
  let modelsDir := getModelsDir in
  let modelPath := modelsDir ++ "/" ++ modelFileName in
  match RNFS.exists_ modelPath fault d with
  | Ok b => b
  | Throw _ => false
  end.

Definition getModelPath (modelFileName : string) : string :=
  getModelsDir ++ "/" ++ modelFileName.

Definition ensureModelsDir (existsFault mkdirFault : option Error) (d : Disk)
  : result unit * Disk :=
  let modelsDir := getModelsDir in
  match RNFS.exists_ modelsDir existsFault d with
  | Ok true => (Ok tt, d)
  | Ok false =>
      match RNFS.mkdir modelsDir mkdirFault d with
      | (Ok _, d') => (Ok tt, d')
      | (Throw error, d') => (Throw error, d')
      end
  | Throw error => (Throw error, d)
  end.

(** The [progress] callback [downloadModel] hands to the transport. *)
Definition progress (res : RNFS.DownloadProgress) : number :=
  div_Z (RNFS.bytesWritten res) (RNFS.contentLength res).

(** [downloadModel(model, onProgress)]: the result, the disk afterwards,
    and the values [onProgress] was called with, in order. *)
Definition downloadModel (model : ModelInfo) (io : IO) (d : Disk)
  : result string * Disk * list number :=
  match ensureModelsDir (existsDirFault io) (mkdirFault io) d with
  | (Ok _, d1) =>
      let modelPath := getModelPath (localPath model) in
      let exists_ := checkModelExists (localPath model) (existsFileFault io) d1 in
      if exists_ then (Ok modelPath, d1, [])
      else
        let notified := map progress (RNFS.reports (network io)) in
        match RNFS.downloadFile (url model) modelPath (network io) d1 with
        | (Ok statusCode, d2) =>
            if (statusCode =? 200)%Z then (Ok modelPath, d2, notified)
            else (Throw (DownloadFailed statusCode), d2, notified)
        | (Throw error, d2) => (Throw error, d2, notified)
        end
  | (Throw error, d1) => (Throw error, d1, [])
  end.

(** [getLocalModels()]: the names found, and the disk afterwards. *)
Definition getLocalModels (existsFault mkdirFault : option Error)
    (listing : result (list RNFS.ReadDirItem)) (d : Disk) : list string * Disk :=
  match ensureModelsDir existsFault mkdirFault d with
  | (Ok _, d1) =>
      let modelsDir := getModelsDir in
      match RNFS.readDir modelsDir listing d1 with
      | Ok files =>
          (map RNFS.name
             (List.filter (fun file => RNFS.isFile file && endsWith (RNFS.name file) ".gguf")
                files),
           d1)
      | Throw _ => ([], d1)
      end
  | (Throw _, d1) => ([], d1)
  end.

End OnPlatform.

(** Calls during which no file-system call fails. *)
Definition faultless (io : IO) : Prop :=
  existsDirFault io = None /\ mkdirFault io = None /\ existsFileFault io = None.

End ModelUtils.

(** ** components/ModelDownloader *)

Module ModelDownloader.
Import JS.
Import ModelUtils(ModelInfo, localPath).

(** The three [useState] cells of the component. *)
Record State : Type := {
  modalVisible : bool;
  downloadProgress : gmap string number;
  currentlyDownloading : option string
}.

Definition initial : State :=
  {| modalVisible := false; downloadProgress := ∅; currentlyDownloading := None |}.

(** The dialogs the component opens.  [ConfirmDownload] carries what its
    'Download' button closes over: the model and the [downloadProgress] of
    the render that created the handler. *)
Inductive Alert : Type :=
| DownloadInProgress                       (* 'Download in Progress' *)
| ConfirmDownload (model : ModelInfo) (captured : gmap string number)
                                           (* 'Download Model': Cancel / Download *)
| DownloadComplete (model : ModelInfo) (modelPath : string)
                                           (* 'Download Complete': OK *)
| DownloadFailedAlert (error : Error).     (* 'Download Failed' *)

Definition setCurrentlyDownloading (v : option string) (s : State) : State :=
  {| modalVisible := modalVisible s;
     downloadProgress := downloadProgress s;
     currentlyDownloading := v |}.

Definition setDownloadProgress (f : gmap string number -> gmap string number) (s : State)
  : State :=
  {| modalVisible := modalVisible s;
     downloadProgress := f (downloadProgress s);
     currentlyDownloading := currentlyDownloading s |}.

Definition setModalVisible (v : bool) (s : State) : State :=
  {| modalVisible := v;
     downloadProgress := downloadProgress s;
     currentlyDownloading := currentlyDownloading s |}.

(** [if (currentlyDownloading)]: the marker holds the [localPath] of the
    download that is running, [null] when none is. *)
Definition downloadActive (s : State) : bool :=
  truthy_opt truthy_string (currentlyDownloading s).

(** [handleDownload(model)], up to the dialog it opens. *)
Definition handleDownload (model : ModelInfo) (s : State) : State * list Alert :=
  if downloadActive s then (s, [DownloadInProgress])
  else (s, [ConfirmDownload model (downloadProgress s)]).

(** The 'Download' button of the confirmation, before the first [await]. *)
Definition startDownload (model : ModelInfo) (captured : gmap string number) (s : State)
  : State :=
  setDownloadProgress (fun _ => <[localPath model := of_Z 0]> captured)
    (setCurrentlyDownloading (Some (localPath model)) s).

(** The [onProgress] callback given to [downloadModel]. *)
Definition onProgress (model : ModelInfo) (progress : number) (s : State) : State :=
  setDownloadProgress (fun prev => <[localPath model := progress]> prev) s.

(** The state while the transfer runs, after the callbacks for [seen]. *)
Definition downloading (model : ModelInfo) (captured : gmap string number)
    (seen : list number) (s : State) : State :=
  fold_left (fun st p => onProgress model p st) seen (startDownload model captured s).

(** The 'Download' button of the confirmation, run to its end. *)
Definition onPressDownload (platform : ModelUtils.Platform) (model : ModelInfo)
    (captured : gmap string number) (io : ModelUtils.IO) (s : State) (d : RNFS.Disk)
  : State * RNFS.Disk * list Alert :=
  match ModelUtils.downloadModel platform model io d with
  | (Ok modelPath, d', notified) =>
      (setCurrentlyDownloading None (downloading model captured notified s), d',
       [DownloadComplete model modelPath])
  | (Throw error, d', notified) =>
      (setCurrentlyDownloading None (downloading model captured notified s), d',
       [DownloadFailedAlert error])
  end.

(** What [renderModelItem] shows on the right of an item. *)
Inductive ItemControl : Type :=
| ProgressText (percent : number)   (* `${Math.round(progress * 100)}%` *)
| DownloadButton.

Definition renderModelItem (item : ModelInfo) (s : State) : ItemControl :=
  let isDownloading :=
    match currentlyDownloading s with
    | Some p => String.eqb p (localPath item)
    | None => false
    end in
  let progress := or_number (downloadProgress s !! localPath item) (of_Z 0) in
  if isDownloading then ProgressText (Math_round (mul_const progress 100))
  else DownloadButton.

(** A fraction in [0,1]. *)
Definition isFraction (n : number) : Prop :=
  match n with
  | Fin q => (0 <= q /\ q <= 1)%Q
  | _ => False
  end.

(** An item that shows a whole percentage between 0 and 100. *)
Definition showsPercentage (c : ItemControl) : Prop :=
  match c with
  | ProgressText (Fin q) => exists n : Z, q = inject_Z n /\ (0 <= n <= 100)%Z
  | _ => False
  end.

(** The 'OK' button of the 'Download Complete' notice: the path handed to
    [onModelDownloaded], and the state with the modal closed. *)
Definition onPressOK (modelPath : string) (s : State) : State * string :=
  (setModalVisible false s, modelPath).

(** The component over time.  Between two of its handlers it is the state,
    the confirmation dialogs that are open (each with the model and the
    record its 'Download' button closed over) and the downloads that were
    started and have not ended. *)
Record Session : Type := {
  state : State;
  pending : list (ModelInfo * gmap string number);
  running : list ModelInfo
}.


(** What the user and the transport do. *)
Inductive Action : Type :=
| Request (model : ModelInfo)           (* a press on the 'Download' button of an item *)
| Confirm (i : nat)                     (* 'Download' in the i-th open confirmation *)
| Cancel (i : nat)                      (* 'Cancel' in the i-th open confirmation *)
| Report (i : nat) (progress : number)  (* a report for the i-th running download *)
| Finish (i : nat).                     (* the i-th running download ends: [finally] *)

(** The confirmation dialogs among the alerts raised. *)
Definition confirmations (alerts : list Alert) : list (ModelInfo * gmap string number) :=
  omap (fun a => match a with
                 | ConfirmDownload model captured => Some (model, captured)
                 | _ => None
                 end) alerts.

(** One action: [handleDownload] for a request; the handler of the
    'Download' button up to its [await], the callback given to
    [downloadModel], and the [finally] of the handler for the others.  An
    action on a dialog or a download that is not there does nothing. *)
Definition act (σ : Session) (a : Action) : Session :=
  match a with
  | Request model =>
      let '(s', alerts) := handleDownload model (state σ) in
      {| state := s';
         pending := (pending σ ++ confirmations alerts)%list;
         running := running σ |}
  | Confirm i =>
      match pending σ !! i with
      | Some (model, captured) =>
          {| state := startDownload model captured (state σ);
             pending := delete i (pending σ);
             running := (running σ ++ [model])%list |}
      | None => σ
      end
  | Cancel i =>
      {| state := state σ; pending := delete i (pending σ); running := running σ |}
  | Report i progress =>
      match running σ !! i with
      | Some model =>
          {| state := onProgress model progress (state σ);
             pending := pending σ;
             running := running σ |}
      | None => σ
      end
  | Finish i =>
      match running σ !! i with
      | Some _ =>
          {| state := setCurrentlyDownloading None (state σ);
             pending := pending σ;
             running := delete i (running σ) |}
      | None => σ
      end
  end.

Definition play (actions : list Action) (σ : Session) : Session := fold_left act actions σ.



End ModelDownloader.

(** ** components/AIChat *)

Module AIChat.
Import JS.

Inductive Id : Type :=
| IdNumber (n : Z)
| IdString (s : string).

Record User : Type := {
  user_id : Id;
  user_name : option string;
  user_avatar : option string
}.

Record IMessage : Type := {
  _id : Id;
  text : string;
  createdAt : Z;
  user : User
}.

Record State : Type := {
  messages : list IMessage;
  isProcessing : bool;
  isInitialized : bool;
  initError : option string
}.

(** [GiftedChat.append(currentMessages, messages)] with its default
    [inverted = true]: the new messages go in front. *)
Definition GiftedChat_append (currentMessages messages : list IMessage) : list IMessage :=
  (messages ++ currentMessages)%list.

Definition setMessages (f : list IMessage -> list IMessage) (s : State) : State :=
  {| messages := f (messages s);
     isProcessing := isProcessing s;
     isInitialized := isInitialized s;
     initError := initError s |}.

Definition setIsProcessing (v : bool) (s : State) : State :=
  {| messages := messages s;
     isProcessing := v;
     isInitialized := isInitialized s;
     initError := initError s |}.

Definition assistant : User :=
  {| user_id := IdNumber 2;
     user_name := Some "AI Assistant";
     user_avatar := Some "https://placeimg.com/140/140/tech" |}.

Definition fallbackText : string :=
  "Sorry, I encountered an error while processing your request.".

(** [Math.random()] and [new Date()] are read once per reply. *)
Record Entropy : Type := {
  randomId : string;
  now : Z
}.

Definition aiMessage (r : Entropy) (body : string) : IMessage :=
  {| _id := IdString (randomId r); text := body; createdAt := now r; user := assistant |}.

(** [onSend(newMessages)], against the singleton service. *)
Definition onSend (newMessages : list IMessage) (r : Entropy) (engine : result string)
    (s : State) (service : LlamaService.t) (e : LlamaRn.Engine)
  : result unit * State * LlamaRn.Engine :=
  match newMessages with
  | [] => (Ok tt, s, e)
  | first :: _ =>
      let s1 := setMessages (fun previousMessages =>
                               GiftedChat_append previousMessages newMessages) s in
      let userMessage := text first in
      let s2 := setIsProcessing true s1 in
      match LlamaService.generateResponse userMessage None engine service e with
      | (Ok response, e') =>
          let s3 := setMessages (fun previousMessages =>
                      GiftedChat_append previousMessages [aiMessage r (trim response)]) s2 in
          (Ok tt, setIsProcessing false s3, e')
      | (Throw _, e') =>
          let s3 := setMessages (fun previousMessages =>
                      GiftedChat_append previousMessages [aiMessage r fallbackText]) s2 in
          (Ok tt, setIsProcessing false s3, e')
      end
  end.

Definition setIsInitialized (v : bool) (s : State) : State :=
  {| messages := messages s;
     isProcessing := isProcessing s;
     isInitialized := v;
     initError := initError s |}.

Definition setInitError (v : option string) (s : State) : State :=
  {| messages := messages s;
     isProcessing := isProcessing s;
     isInitialized := isInitialized s;
     initError := v |}.

(** The state of a component that was just mounted. *)
Definition initial : State :=
  {| messages := []; isProcessing := false; isInitialized := false; initError := None |}.

Definition welcome (welcomeMessage : string) (now : Z) : IMessage :=
  {| _id := IdNumber 1; text := welcomeMessage; createdAt := now; user := assistant |}.

(** The object literal [{ modelPath: modelPath }] of a prop that may be
    [undefined]. *)
Definition modelPathOption (modelPath : option string) : LlamaService.PartialLlamaOptions :=
  {| LlamaService.modelPath' := Present modelPath;
     LlamaService.promptTemplate' := Absent;
     LlamaService.temperature' := Absent;
     LlamaService.maxTokens' := Absent;
     LlamaService.contextSize' := Absent;
     LlamaService.gpuLayers' := Absent;
     LlamaService.useMLock' := Absent |}.

(** The body of the effect, [initLlama()].  [LlamaService.init] never
    throws, so the [catch] of the effect is never entered. *)
Definition initLlama (modelPath : option string) (welcomeMessage : string) (now : Z)
    (engine : result unit) (s : State) (service : LlamaService.t) (e : LlamaRn.Engine)
  : State * LlamaService.t * LlamaRn.Engine :=
  let s1 := setIsInitialized false s in
  match LlamaService.init (Some (modelPathOption modelPath)) engine service e with
  | (true, service', e') =>
      (setMessages (fun _ => [welcome welcomeMessage now])
         (setInitError None (setIsInitialized true s1)),
       service', e')
  | (false, service', e') =>
      (setInitError (Some "Failed to initialize the AI model") s1, service', e')
  end.

(** What [renderFooter] returns. *)
Inductive Footer : Type :=
| InitializingIndicator        (* the large spinner *)
| ProcessingIndicator          (* the small spinner *)
| ErrorText (message : string)
| NoFooter.

Definition renderFooter (s : State) : Footer :=
  if negb (isInitialized s) then InitializingIndicator
  else if isProcessing s then ProcessingIndicator
  else
    match initError s with
    | Some message => if truthy_string message then ErrorText message else NoFooter
    | None => NoFooter
    end.

(** What happens to a mounted component: its effect runs (on mount and on
    every change of [modelPath] or [welcomeMessage]), the cleanup of the
    effect runs, a message is sent.  Each handler is taken to run to its
    end before the next one starts. *)
Inductive Event : Type :=
| EffectRuns (modelPath : option string) (welcomeMessage : string) (now : Z)
             (engine : result unit)
| EffectCleanup (engine : result unit)
| Sends (newMessages : list IMessage) (r : Entropy) (engine : result string).

Definition World : Type := State * LlamaService.t * LlamaRn.Engine.

Definition step (w : World) (ev : Event) : World :=
  let '(s, service, e) := w in
  match ev with
  | EffectRuns modelPath welcomeMessage now engine =>
      initLlama modelPath welcomeMessage now engine s service e
  | EffectCleanup engine =>
      let '(_, service', e') := LlamaService.cleanup engine service e in
      (s, service', e')
  | Sends newMessages r engine =>
      let '(_, s', e') := onSend newMessages r engine s service e in
      (s', service, e')
  end.

Definition run (events : list Event) (w : World) : World := fold_left step events w.

(** The initialisation error is set only while the chat counts as not
    initialised. *)
Definition errorHidden (s : State) : Prop :=
  initError s = None \/ isInitialized s = false.



End AIChat.

(** ** App (the application shell) *)

Module App.
Import JS.

Record State : Type := {
  isLoading : bool;
  modelPath : option string;
  error : option string
}.

Definition initial : State := {| isLoading := true; modelPath := None; error := None |}.

Definition setIsLoading (v : bool) (s : State) : State :=
  {| isLoading := v; modelPath := modelPath s; error := error s |}.

Definition setModelPath (v : option string) (s : State) : State :=
  {| isLoading := isLoading s; modelPath := v; error := error s |}.

Definition setError (v : option string) (s : State) : State :=
  {| isLoading := isLoading s; modelPath := modelPath s; error := v |}.

Inductive Alert : Type :=
| NoModelsFound.   (* 'No Models Found' *)

Definition noModelsError : string :=
  "No language models found. Please add a model to the models directory.".

(** [checkModels()], the start-up effect.  [getLocalModels] never throws, so
    the [catch] is never entered. *)
Definition checkModels (platform : ModelUtils.Platform)
    (existsFault mkdirFault : option Error) (listing : result (list RNFS.ReadDirItem))
    (s : State) (d : RNFS.Disk) : State * RNFS.Disk * list Alert :=
  let s1 := setIsLoading true s in
  let '(localModels, d') :=
    ModelUtils.getLocalModels platform existsFault mkdirFault listing d in
  match localModels with
  | modelFile :: _ =>
      (setIsLoading false
         (setModelPath (Some (ModelUtils.getModelPath platform modelFile)) s1), d', [])
  | [] =>
      (setIsLoading false (setError (Some noModelsError) s1), d', [NoModelsFound])
  end.

(** The screen the component renders. *)
Inductive Screen : Type :=
| LoadingScreen
| ErrorScreen (error : string)    (* the error text above a ModelDownloader *)
| ChatScreen (modelPath : string) (* AIChat bound to the model *)
| AddModelScreen.                 (* 'Please add a language model', a ModelDownloader *)

Definition renderChat (s : State) : Screen :=
  match modelPath s with
  | Some path => if truthy_string path then ChatScreen path else AddModelScreen
  | None => AddModelScreen
  end.

Definition render (s : State) : Screen :=
  if isLoading s then LoadingScreen
  else
    match error s with
    | Some message => if truthy_string message then ErrorScreen message else renderChat s
    | None => renderChat s
    end.

(** [onModelDownloaded] as the error screen passes it to the downloader. *)
Definition onModelDownloaded (path : string) (s : State) : State :=
  setError None (setModelPath (Some path) s).

(** [onModelDownloaded] as the 'Please add a language model' screen passes
    it. *)
Definition onModelDownloadedAdd (path : string) (s : State) : State :=
  setModelPath (Some path) s.

End App.

(** ** Concrete values used in the examples *)

Module Samples.
Import JS.

Definition withModelPath (v : option string) : LlamaService.PartialLlamaOptions :=
  {| LlamaService.modelPath' := Present v;
     LlamaService.promptTemplate' := Absent;
     LlamaService.temperature' := Absent;
     LlamaService.maxTokens' := Absent;
     LlamaService.contextSize' := Absent;
     LlamaService.gpuLayers' := Absent;
     LlamaService.useMLock' := Absent |}.

Definition withTemplate (template : string) : LlamaService.PartialLlamaOptions :=
  {| LlamaService.modelPath' := Absent;
     LlamaService.promptTemplate' := Present (Some template);
     LlamaService.temperature' := Absent;
     LlamaService.maxTokens' := Absent;
     LlamaService.contextSize' := Absent;
     LlamaService.gpuLayers' := Absent;
     LlamaService.useMLock' := Absent |}.

Definition withSampling (t n : number) : LlamaService.PartialLlamaOptions :=
  {| LlamaService.modelPath' := Absent;
     LlamaService.promptTemplate' := Absent;
     LlamaService.temperature' := Present (Some t);
     LlamaService.maxTokens' := Present (Some n);
     LlamaService.contextSize' := Absent;
     LlamaService.gpuLayers' := Absent;
     LlamaService.useMLock' := Absent |}.

(** The service and the engine after [init({modelPath: path})] succeeded
    on a new service. *)
Definition boundTo (path : string) : LlamaService.t * LlamaRn.Engine :=
  let '(_, this, e) :=
    LlamaService.init (Some (withModelPath (Some path))) (Ok tt)
      LlamaService.new LlamaRn.fresh in
  (this, e).

Definition android : ModelUtils.Platform :=
  {| ModelUtils.OS := "android";
     ModelUtils.DocumentDirectoryPath := "/data/app/files";
     ModelUtils.ExternalDirectoryPath := "/storage/app/files" |}.

Definition emptyDisk : RNFS.Disk := {| RNFS.paths := ∅; RNFS.transfers := [] |}.

Definition testModel : ModelUtils.ModelInfo :=
  {| ModelUtils.name := "Test Model";
     ModelUtils.size := "1GB";
     ModelUtils.url := "https://example/test.gguf";
     ModelUtils.localPath := "test.gguf" |}.

Definition hello : AIChat.IMessage :=
  {| AIChat._id := AIChat.IdString "m1";
     AIChat.text := "hi";
     AIChat.createdAt := 1700000000000;
     AIChat.user := {| AIChat.user_id := AIChat.IdNumber 1;
                       AIChat.user_name := None;
                       AIChat.user_avatar := None |} |}.

(** The two models of the registry. *)
Definition gemma : ModelUtils.ModelInfo :=
  {| ModelUtils.name := "Gemma 2B Instruct";
     ModelUtils.size := "1.57GB";
     ModelUtils.url := "https://huggingface.co/lmstudio-community/gemma-2-2b-it-GGUF/resolve/main/gemma-2-2b-it-IQ4_XS.gguf";
     ModelUtils.localPath := "gemma-2-2b-it-IQ4_XS.gguf" |}.


End Samples.

(** * Properties *)

(** ** Session lifecycle *)

Section Lifecycle.
Import JS LlamaRn LlamaService.

Lemma releases_snoc_release (e : Engine) (ctx : LlamaContext) (l : list LlamaContext)
    (n : LlamaContext) :
  releases {| live := l; next := n; calls := (calls e ++ [CallRelease ctx])%list |}
  = (releases e ++ [ctx])%list.
Proof. unfold releases; simpl. now rewrite omap_app. Qed.

Lemma releases_snoc_init (e : Engine) (p : InitParams) (l : list LlamaContext)
    (n : LlamaContext) :
  releases {| live := l; next := n; calls := (calls e ++ [CallInit p])%list |}
  = releases e.
Proof. unfold releases; simpl. rewrite omap_app; simpl. apply app_nil_r. Qed.

Lemma completions_snoc (e : Engine) (ctx : LlamaContext) (p : CompletionParams)
    (l : list LlamaContext) (n : LlamaContext) :
  completions {| live := l; next := n; calls := (calls e ++ [CallCompletion ctx p])%list |}
  = (completions e ++ [p])%list.
Proof. unfold completions; simpl. now rewrite omap_app. Qed.

Lemma not_live_after_release (ctx : LlamaContext) (l : list LlamaContext) :
  ctx ∉ List.filter (fun c => negb (Nat.eqb c ctx)) l.
Proof.
  intros Hin. apply list_elem_of_In, filter_In in Hin as [_ Hne].
  now rewrite Nat.eqb_refl in Hne.
Qed.

(** [cleanup] never throws. *)
Lemma cleanup_returns (engine : result unit) (this : t) (e : Engine) :
  (cleanup engine this e).1.1 = Ok tt.
Proof.
  unfold cleanup. destruct (context this); [destruct engine|]; reflexivity.
Qed.

(** [init] makes no [release] call. *)
Lemma init_releases (options : option PartialLlamaOptions) (engine : result unit)
    (this : t) (e : Engine) :
  releases (init options engine this e).2 = releases e.
Proof.
  unfold init.
  destruct (mergedModelPath _) as [path|]; [|reflexivity].
  destruct (truthy_string path); [|reflexivity].
  destruct engine; simpl; apply releases_snoc_init.
Qed.

(** From a manager without a handle and an engine without live contexts,
    [init] leaves at most the context it returns. *)
Lemma init_from_uninitialized (options : option PartialLlamaOptions)
    (engine : result unit) (this : t) (e : Engine) :
  context this = None -> live e = [] ->
  let '(_, this', e') := init options engine this e in
  owns this' e' /\ (length (live e') <= 1)%nat.
Proof.
  intros Hctx Hlive. unfold init, owns.
  destruct (mergedModelPath (merge (defaultOptions this) options)) as [path|].
  - destruct (truthy_string path).
    + destruct engine; cbn; rewrite Hlive; auto.
    + rewrite Hctx, Hlive. cbn. auto.
  - rewrite Hctx, Hlive. cbn. auto.
Qed.

(** C1, as the claim states it, fails: a live handle whose release fails
    is kept, and the manager stays Ready. *)
Lemma cleanup_failed_release_stays_ready :
  let '(this, e) := Samples.boundTo "/models/a.gguf" in
  let '(r, this', e') := cleanup (Throw (Foreign "release failed")) this e in
  r = Ok tt /\ this' = this /\ Ready this' /\ ~ Uninitialized this'
  /\ context this' = Some 0%nat /\ live e' = [0%nat].
Proof.
  simpl. repeat split; eauto.
  intros [H|H]; discriminate H.
Qed.

(** C1 (amended): [cleanup] never throws; without a handle it does
    nothing; with a handle it asks the engine to release it, and if that
    succeeds the manager is Uninitialized (context cleared, flag false) and
    the handle is no longer live, so that a further [cleanup] does
    nothing; if the release fails the error is swallowed and the manager is
    left as it was, still holding the handle. *)
Theorem cleanup_spec (engine : result unit) (this : t) (e : Engine) :
  let '(r, this', e') := cleanup engine this e in
  r = Ok tt
  /\ (context this = None -> this' = this /\ e' = e)
  /\ (forall ctx, context this = Some ctx ->
        releases e' = (releases e ++ [ctx])%list
        /\ (engine = Ok tt ->
              isInitialized this' = false /\ context this' = None
              /\ (ctx ∉ live e')
              /\ forall engine2, cleanup engine2 this' e' = (Ok tt, this', e'))
        /\ (forall err, engine = Throw err -> this' = this /\ live e' = live e)).
Proof.
  unfold cleanup. destruct (context this) as [ctx|] eqn:Hctx.
  - destruct engine as [[]|err]; simpl.
    + split; [reflexivity|]. split; [discriminate|].
      intros ctx' [= <-]. split; [apply releases_snoc_release|].
      split; [|discriminate].
      intros _. split; [reflexivity|]. split; [reflexivity|].
      split; [apply not_live_after_release|].
      intros engine2. reflexivity.
    + split; [reflexivity|]. split; [discriminate|].
      intros ctx' [= <-]. split; [apply releases_snoc_release|].
      split; [discriminate|].
      intros err' _. split; reflexivity.
  - split; [reflexivity|]. split; [intros _; split; reflexivity|].
    intros ctx [=].
Qed.

(** A Ready manager whose release succeeds. *)
Lemma cleanup_spec_witness :
  let this := (Samples.boundTo "/models/a.gguf").1 in
  let e := (Samples.boundTo "/models/a.gguf").2 in
  context this = Some 0%nat
  /\ isInitialized (cleanup (Ok tt) this e).1.2 = false
  /\ context (cleanup (Ok tt) this e).1.2 = None.
Proof.
  intros this e.
  pose proof (cleanup_spec (Ok tt) this e) as H.
  destruct (cleanup (Ok tt) this e) as [[r this'] e'].
  destruct H as (_ & _ & H).
  destruct (H 0%nat eq_refl) as (_ & Hok & _).
  destruct (Hok eq_refl) as (H1 & H2 & _).
  split; [reflexivity|]. split; assumption.
Defined.

(** C2, as the claim states it, fails: a second [init] on a Ready manager
    acquires a second context without releasing the first. *)
Lemma init_twice_leaks :
  let '(this1, e1) := Samples.boundTo "/models/a.gguf" in
  let '(r, this2, e2) :=
    init (Some (Samples.withModelPath (Some "/models/b.gguf"))) (Ok tt) this1 e1 in
  Ready this1 /\ r = true /\ Ready this2
  /\ releases e2 = [] /\ live e2 = [1%nat; 0%nat] /\ context this2 = Some 1%nat.
Proof.
  simpl. unfold Ready; simpl. repeat split; eauto.
Qed.

(** C2 (amended): [init] itself never releases a handle: whatever the
    manager holds, it makes no release call and every context that was live
    stays live.  When it succeeds it overwrites the reference of the manager
    with the context the engine just created, so the engine has one live
    context more; when it fails the live contexts are as they were.  The
    manager holds the engine's only live handle as long as its caller runs
    [cleanup] (with a release that succeeds) before every further [init]. *)
Theorem reinit_spec (options : option PartialLlamaOptions) (engine : result unit)
    (this : t) (e : Engine) :
  (let '(r, this', e') := init options engine this e in
   releases e' = releases e
   /\ (forall ctx, ctx ∈ live e -> ctx ∈ live e')
   /\ (r = true -> context this' = Some (next e) /\ live e' = next e :: live e)
   /\ (r = false -> live e' = live e))
  /\
  (owns this e ->
   let '(_, this1, e1) := cleanup (Ok tt) this e in
   let '(_, this2, e2) := init options engine this1 e1 in
   owns this2 e2 /\ (length (live e2) <= 1)%nat).
Proof.
  split.
  - pose proof (init_releases options engine this e) as Hrel.
    destruct (init options engine this e) as [[r this'] e'] eqn:Hinit.
    cbn [snd] in Hrel. split; [exact Hrel|].
    unfold init in Hinit.
    destruct (mergedModelPath (merge (defaultOptions this) options)) as [path|].
    + destruct (truthy_string path).
      * destruct engine as [[]|err]; cbn in Hinit; injection Hinit as <- <- <-;
          cbn [live context].
        -- split; [intros ctx Hctx; apply elem_of_cons; now right|].
           split; [intros _; split; reflexivity|discriminate].
        -- split; [auto|]. split; [discriminate|reflexivity].
      * injection Hinit as <- <- <-.
        split; [auto|]. split; [discriminate|reflexivity].
    + injection Hinit as <- <- <-.
      split; [auto|]. split; [discriminate|reflexivity].
  - intros Hown.
    assert (Hclean : exists e1,
               cleanup (Ok tt) this e
               = (Ok tt, {| isInitialized := match context this with
                                             | Some _ => false
                                             | None => isInitialized this end;
                            context := None;
                            defaultOptions := defaultOptions this |}, e1)
               /\ live e1 = []).
    { unfold cleanup, owns in *. destruct this as [i [ctx|] d]; simpl in *.
      - eexists; split; [reflexivity|]. simpl. rewrite Hown. simpl.
        now rewrite Nat.eqb_refl.
      - eexists; split; [reflexivity|]. exact Hown. }
    destruct Hclean as (e1 & -> & Hlive).
    pose proof (init_from_uninitialized options engine
                  {| isInitialized := match context this with
                                      | Some _ => false
                                      | None => isInitialized this end;
                     context := None;
                     defaultOptions := defaultOptions this |} e1 eq_refl Hlive) as H.
    destruct (init options engine _ e1) as [[r this2] e2]. exact H.
Qed.

(** A third [init] after the leak of [init_twice_leaks]: still no release,
    and a third live context. *)
Example init_thrice_leaks :
  let '(this1, e1) := Samples.boundTo "/models/a.gguf" in
  let '(_, this2, e2) :=
    init (Some (Samples.withModelPath (Some "/models/b.gguf"))) (Ok tt) this1 e1 in
  let '(r, this3, e3) := init None (Ok tt) this2 e2 in
  ~ owns this2 e2 /\ r = true /\ releases e3 = []
  /\ live e3 = [2%nat; 1%nat; 0%nat] /\ context this3 = Some 2%nat.
Proof.
  cbn. repeat split. discriminate.
Qed.

Lemma reinit_spec_witness :
  let '(this, e) := Samples.boundTo "/models/a.gguf" in
  owns this e /\
  (let '(_, this1, e1) := cleanup (Ok tt) this e in
   let '(_, this2, e2) :=
     init (Some (Samples.withModelPath (Some "/models/b.gguf"))) (Ok tt) this1 e1 in
   owns this2 e2 /\ (length (live e2) <= 1)%nat).
Proof.
  assert (H : owns (Samples.boundTo "/models/a.gguf").1 (Samples.boundTo "/models/a.gguf").2)
    by reflexivity.
  split; [exact H|].
  exact (proj2 (reinit_spec (Some (Samples.withModelPath (Some "/models/b.gguf")))
                  (Ok tt) _ _) H).
Defined.

End Lifecycle.

(** ** Generation *)

Section Generation.
Import JS LlamaRn LlamaService.

(** On a Ready manager [generateResponse] makes exactly one completion
    request, whose fields are these. *)
Lemma generateResponse_ready (prompt : string) (options : option PartialLlamaOptions)
    (engine : result string) (this : t) (e : Engine) (ctx : LlamaContext) :
  isInitialized this = true -> context this = Some ctx ->
  let mergedOptions := merge (defaultOptions this) options in
  let request :=
    {| LlamaRn.prompt := formatPrompt mergedOptions prompt;
       n_predict := or_number (mergedMaxTokens mergedOptions) (of_Z 512);
       LlamaRn.temperature := or_number (mergedTemperature mergedOptions) (Fin 0.7);
       stop := stopWords |} in
  (generateResponse prompt options engine this e).1
  = match engine with Ok text => Ok (trim text) | Throw error => Throw error end
  /\ completions (generateResponse prompt options engine this e).2
     = (completions e ++ [request])%list.
Proof.
  intros Hinit Hctx. unfold generateResponse. rewrite Hinit, Hctx.
  unfold completion. destruct engine; cbn [fst snd]; split; try reflexivity;
    apply completions_snoc.
Qed.

(** C5, as the claim states it, fails: after a [cleanup] whose release
    failed, [generateResponse] issues a completion request and returns the
    engine's text. *)
Lemma generate_after_failed_release :
  let '(this, e) := Samples.boundTo "/models/a.gguf" in
  let '(_, this', e') := cleanup (Throw (Foreign "release failed")) this e in
  let '(r, e'') := generateResponse "hi" None (Ok " hello ") this' e' in
  r = Ok "hello" /\ r <> Throw NotInitialized /\ length (completions e'') = 1%nat.
Proof.
  cbn. repeat split. discriminate.
Qed.

(** C5 (amended): on an Uninitialized manager [generateResponse] throws
    the not-initialized error for every prompt and makes no call to the
    engine; this is the state after every [cleanup] whose release did not
    fail. *)
Theorem generate_uninitialized (prompt : string) (options : option PartialLlamaOptions)
    (engine : result string) (this : t) (e : Engine) :
  (Uninitialized this ->
     generateResponse prompt options engine this e = (Throw NotInitialized, e))
  /\
  (let '(_, this', e') := cleanup (Ok tt) this e in
   Uninitialized this'
   /\ generateResponse prompt options engine this' e' = (Throw NotInitialized, e')).
Proof.
  split.
  - intros [H|H]; unfold generateResponse; rewrite H; [reflexivity|].
    destruct (isInitialized this); reflexivity.
  - unfold cleanup. destruct (context this) as [ctx|] eqn:Hctx; cbn.
    + split; [left; reflexivity|reflexivity].
    + split; [right; exact Hctx|].
      unfold generateResponse. rewrite Hctx.
      destruct (isInitialized this); reflexivity.
Qed.

(** A service that was never initialised. *)
Lemma generate_uninitialized_witness :
  Uninitialized LlamaService.new
  /\ generateResponse "hi" None (Ok "unused") LlamaService.new LlamaRn.fresh
     = (Throw NotInitialized, LlamaRn.fresh).
Proof.
  assert (H : Uninitialized LlamaService.new) by (left; reflexivity).
  split; [exact H|].
  exact (proj1 (generate_uninitialized "hi" None (Ok "unused")
                  LlamaService.new LlamaRn.fresh) H).
Defined.

Lemma append_cons (c : ascii) (a b : string) : String c a ++ b = String c (a ++ b).
Proof. reflexivity. Qed.

(** Where [s] has an occurrence of [pat], [split_first] cuts around it. *)
Lemma drop_prefix (pat s : string) :
  String.prefix pat s = true -> s = pat ++ drop (String.length pat) s.
Proof.
  revert s. induction pat as [|c pat IH]; intros s H; [reflexivity|].
  destruct s as [|c' s]; [discriminate|]. cbn in H |- *.
  destruct (Ascii.ascii_dec c c') as [->|]; [|discriminate].
  rewrite append_cons. f_equal. now apply IH.
Qed.

Lemma split_first_cut (pat s before after : string) :
  split_first pat s = Some (before, after) -> s = before ++ pat ++ after.
Proof.
  revert before after. induction s as [|c s IH]; intros before after H.
  - cbn [split_first] in H. destruct (String.prefix pat "") eqn:Hp; [|discriminate].
    injection H as <- <-. now apply drop_prefix.
  - cbn [split_first] in H.
    destruct (String.prefix pat (String c s)) eqn:Hp.
    + injection H as <- <-. now apply drop_prefix.
    + destruct (split_first pat s) as [[b a]|]; [|discriminate].
      injection H as <- <-. rewrite append_cons. f_equal. now apply IH.
Qed.

Lemma GetSubstitution_dollar_free (matched before after r : string) :
  dollar_free r = true -> GetSubstitution matched before after r = r.
Proof.
  induction r as [|c r IH]; [reflexivity|]. cbn [dollar_free GetSubstitution].
  destruct (Ascii.eqb c "$"); [discriminate|]. cbn. intros H. f_equal. now apply IH.
Qed.

(** The substitution is literal for every prompt without a dollar sign:
    the first occurrence of the placeholder is replaced by the prompt as it
    is. *)
Lemma formatPrompt_literal (m : MergedOptions) (before after prompt : string) :
  mergedPromptTemplate m = Some (before ++ "{prompt}" ++ after) ->
  split_first "{prompt}" (before ++ "{prompt}" ++ after) = Some (before, after) ->
  dollar_free prompt = true ->
  formatPrompt m prompt = before ++ prompt ++ after.
Proof.
  intros Ht Hs Hd. unfold formatPrompt. rewrite Ht.
  assert (Htruthy : truthy_string (before ++ "{prompt}" ++ after) = true).
  { destruct before; reflexivity. }
  rewrite Htruthy. unfold replace. rewrite Hs.
  now rewrite GetSubstitution_dollar_free.
Qed.

(** The scenario of the specification. *)
Example formatPrompt_scenario :
  formatPrompt (merge initialDefaultOptions (Some (Samples.withTemplate "<a>{prompt}<b>"))) "hi"
  = "<a>hi<b>".
Proof. reflexivity. Qed.

(** C6: the prompt is not always substituted unchanged.  The prompt
    is the replacement argument of [String.prototype.replace], in which
    [$&], [$$], [$`] and [$'] are patterns: a prompt that contains one
    reaches the engine altered. *)
Theorem prompt_with_dollar_is_altered :
  let '(this, e) := Samples.boundTo "/models/a.gguf" in
  let options := Some (Samples.withTemplate "<a>{prompt}<b>") in
  map LlamaRn.prompt
    (completions (generateResponse "what is $& worth, $$5?" options (Ok "") this e).2)
  = ["<a>what is {prompt} worth, $5?<b>"]
  /\ map LlamaRn.prompt
       (completions (generateResponse "what is $& worth, $$5?" options (Ok "") this e).2)
     <> ["<a>what is $& worth, $$5?<b>"].
Proof.
  cbn. split; [reflexivity|discriminate].
Qed.

(** C9: a caller's temperature of zero is replaced by 0.7 and a caller's
    maxTokens of zero by 512 in the completion request. *)
Theorem zero_sampling_options_replaced (prompt : string) (o : PartialLlamaOptions)
    (engine : result string) (this : t) (e : Engine) :
  Ready this ->
  exists request,
    completions (generateResponse prompt (Some o) engine this e).2
    = (completions e ++ [request])%list
    /\ (forall q, temperature' o = Present (Some (Fin q)) -> q == 0 ->
          LlamaRn.temperature request = Fin 0.7)
    /\ (forall q, maxTokens' o = Present (Some (Fin q)) -> q == 0 ->
          n_predict request = of_Z 512).
Proof.
  intros [Hinit [ctx Hctx]].
  destruct (generateResponse_ready prompt (Some o) engine this e ctx Hinit Hctx)
    as [_ Hreq].
  eexists. split; [exact Hreq|].
  assert (Hz : forall q, q == 0 -> truthy_number (Fin q) = false).
  { intros [n d] Hq. unfold Qeq in Hq. cbn in Hq |- *.
    replace n with 0%Z by lia. reflexivity. }
  split; intros q Hq Hzero; cbn; rewrite Hq; cbn [spread or_number];
    rewrite (Hz q Hzero); reflexivity.
Qed.

Lemma zero_sampling_options_replaced_witness :
  let '(this, e) := Samples.boundTo "/models/a.gguf" in
  Ready this /\
  exists request,
    completions (generateResponse "hi" (Some (Samples.withSampling (of_Z 0) (of_Z 0)))
                   (Ok "hello") this e).2
    = (completions e ++ [request])%list
    /\ LlamaRn.temperature request = Fin 0.7
    /\ n_predict request = of_Z 512.
Proof.
  assert (H : Ready (Samples.boundTo "/models/a.gguf").1).
  { split; [reflexivity|]. exists 0%nat. reflexivity. }
  split; [exact H|].
  destruct (zero_sampling_options_replaced "hi"
              (Samples.withSampling (of_Z 0) (of_Z 0)) (Ok "hello") _
              (Samples.boundTo "/models/a.gguf").2 H) as (request & Hreq & Ht & Hn).
  exists request. split; [exact Hreq|]. split.
  - apply (Ht (inject_Z 0)); reflexivity.
  - apply (Hn (inject_Z 0)); reflexivity.
Defined.

End Generation.

(** ** The model path kept between initialisations *)

Section Rebinding.
Import JS LlamaRn LlamaService.

Lemma merge_omitted_path (d : LlamaOptions) (options : option PartialLlamaOptions) :
  omitsModelPath options -> mergedModelPath (merge d options) = Some (modelPath d).
Proof.
  destruct options as [o|]; cbn; [|reflexivity]. intros ->. reflexivity.
Qed.

(** C10, as the claim states it, fails for the empty path: an empty
    [modelPath] given by the caller replaces the stored one in the merge, and
    [init] returns failure without calling the engine. *)
Lemma init_empty_path_fails :
  let '(this1, e1) := Samples.boundTo "/models/a.gguf" in
  modelPath (defaultOptions this1) = "/models/a.gguf"
  /\ init (Some (Samples.withModelPath (Some ""))) (Ok tt) this1 e1 = (false, this1, e1).
Proof.
  cbn. split; reflexivity.
Qed.

(** C10 (amended): a successful [init] stores the non-empty path it bound
    in the defaults of the manager.  A later [init] whose options have no
    [modelPath] key passes the path check and asks the engine for that
    stored path, and succeeds exactly when the engine does.  A later [init]
    that passes an empty (or undefined) [modelPath] returns failure and
    changes nothing. *)
Theorem init_remembers_model_path (options : option PartialLlamaOptions)
    (engine : result unit) (this : t) (e : Engine) (this1 : t) (e1 : Engine) :
  init options engine this e = (true, this1, e1) ->
  let path := modelPath (defaultOptions this1) in
  truthy_string path = true
  /\ mergedModelPath (merge (defaultOptions this) options) = Some path
  /\ (forall options2 engine2, omitsModelPath options2 ->
        let '(r, _, e2) := init options2 engine2 this1 e1 in
        r = match engine2 with Ok _ => true | Throw _ => false end
        /\ exists p, calls e2 = (calls e1 ++ [CallInit p])%list /\ model p = path)
  /\ (forall o engine2,
        modelPath' o = Present None \/ modelPath' o = Present (Some "") ->
        init (Some o) engine2 this1 e1 = (false, this1, e1)).
Proof.
  intros Hinit. unfold init in Hinit.
  destruct (mergedModelPath (merge (defaultOptions this) options)) as [path0|] eqn:Hm;
    [|discriminate].
  destruct (truthy_string path0) eqn:Htruthy; [|discriminate].
  destruct engine; cbn in Hinit; [|discriminate].
  injection Hinit as <- <-. cbn [defaultOptions setModelPath modelPath].
  split; [exact Htruthy|]. split; [reflexivity|]. split.
  - intros options2 engine2 Homit. unfold init.
    rewrite (merge_omitted_path _ options2 Homit).
    cbn [defaultOptions setModelPath modelPath]. rewrite Htruthy.
    destruct engine2; cbn; (split; [reflexivity|]); eexists; split; reflexivity.
  - intros o engine2 [Ho|Ho]; unfold init; cbn; rewrite Ho; reflexivity.
Qed.

Lemma init_remembers_model_path_witness :
  let '(this1, e1) := Samples.boundTo "/models/a.gguf" in
  modelPath (defaultOptions this1) = "/models/a.gguf"
  /\ (let '(r, _, e2) := init None (Ok tt) this1 e1 in
      r = true
      /\ exists p, calls e2 = (calls e1 ++ [CallInit p])%list
                   /\ model p = "/models/a.gguf").
Proof.
  split; [reflexivity|].
  exact (proj1 (proj2 (proj2
           (init_remembers_model_path
              (Some (Samples.withModelPath (Some "/models/a.gguf"))) (Ok tt)
              LlamaService.new LlamaRn.fresh _ _ eq_refl)))
           None (Ok tt) I).
Defined.

End Rebinding.

(** ** The model store *)

Section Store.
Import JS RNFS ModelUtils.
Variable platform : Platform.

Lemma ensureModelsDir_ok (existsFault mkdirFault : option Error) (d d' : Disk) :
  ensureModelsDir platform existsFault mkdirFault d = (Ok tt, d') ->
  getModelsDir platform ∈ paths d' /\ transfers d' = transfers d.
Proof.
  unfold ensureModelsDir, exists_, mkdir.
  destruct existsFault; [discriminate|].
  destruct (bool_decide (getModelsDir platform ∈ paths d)) eqn:Hdir.
  - intros [= <-]. split; [now apply bool_decide_eq_true in Hdir|reflexivity].
  - destruct mkdirFault; [discriminate|]. intros [= <-]. cbn.
    split; [set_solver|reflexivity].
Qed.

Lemma ensureModelsDir_present (d : Disk) :
  getModelsDir platform ∈ paths d -> ensureModelsDir platform None None d = (Ok tt, d).
Proof.
  intros Hdir. unfold ensureModelsDir, exists_.
  now rewrite (bool_decide_eq_true_2 _ Hdir).
Qed.

(** With the directory and the file on disk and no I/O fault,
    [downloadModel] returns the path at once. *)
Lemma downloadModel_present (model : ModelInfo) (io : IO) (d : Disk) :
  faultless io ->
  getModelsDir platform ∈ paths d ->
  getModelPath platform (localPath model) ∈ paths d ->
  downloadModel platform model io d
  = (Ok (getModelPath platform (localPath model)), d, []).
Proof.
  intros (He & Hm & Hf) Hdir Hfile. unfold downloadModel.
  rewrite He, Hm, Hf, (ensureModelsDir_present d Hdir).
  unfold checkModelExists, exists_. fold (getModelPath platform (localPath model)).
  now rewrite (bool_decide_eq_true_2 _ Hfile).
Qed.

(** C4: [downloadModel] is idempotent.  When a first call returns a path,
    a second call in sequence (during which no file-system call fails)
    returns the same path, finds the target file and leaves the disk and the
    list of transfers as they are; the first call started one transfer at
    most. *)
Theorem downloadModel_idempotent (model : ModelInfo) (io1 io2 : IO) (d d1 : Disk)
    (path : string) (notified : list number) :
  downloadModel platform model io1 d = (Ok path, d1, notified) ->
  faultless io2 ->
  path = getModelPath platform (localPath model)
  /\ checkModelExists platform (localPath model) None d1 = true
  /\ downloadModel platform model io2 d1 = (Ok path, d1, [])
  /\ (length (transfers d1) <= S (length (transfers d)))%nat.
Proof.
  intros Hfirst Hio2. unfold downloadModel in Hfirst.
  destruct (ensureModelsDir platform (existsDirFault io1) (mkdirFault io1) d)
    as [[[]|err] d0] eqn:Hdir; [|discriminate].
  apply ensureModelsDir_ok in Hdir as [Hdir Htr].
  assert (Hdone : getModelsDir platform ∈ paths d1
                  /\ getModelPath platform (localPath model) ∈ paths d1
                  /\ path = getModelPath platform (localPath model)
                  /\ (length (transfers d1) <= S (length (transfers d)))%nat).
  { destruct (checkModelExists platform (localPath model) (existsFileFault io1) d0)
      eqn:Hexists.
    - injection Hfirst as <- <- _.
      unfold checkModelExists, exists_ in Hexists.
      destruct (existsFileFault io1); [discriminate|].
      apply bool_decide_eq_true in Hexists.
      repeat split; [exact Hdir|exact Hexists|rewrite Htr; lia].
    - unfold downloadFile in Hfirst.
      destruct (outcome (network io1)) as [statusCode|err]; [|discriminate].
      destruct (statusCode =? 200)%Z eqn:Hstatus; [|discriminate].
      apply Z.eqb_eq in Hstatus as ->.
      injection Hfirst as <- <- _. cbn.
      repeat split; [set_solver|set_solver|].
      rewrite length_app, Htr. cbn. lia. }
  destruct Hdone as (Hdir1 & Hfile1 & -> & Hlen).
  split; [reflexivity|]. split.
  - unfold checkModelExists, exists_. fold (getModelPath platform (localPath model)).
    now rewrite (bool_decide_eq_true_2 _ Hfile1).
  - split; [now apply downloadModel_present|exact Hlen].
Qed.

End Store.

(** A first download into an empty disk, then a second one. *)
Lemma downloadModel_idempotent_witness :
  let io := {| ModelUtils.existsDirFault := None;
               ModelUtils.mkdirFault := None;
               ModelUtils.existsFileFault := None;
               ModelUtils.network :=
                 {| RNFS.reports := [{| RNFS.bytesWritten := 512; RNFS.contentLength := 1024 |}];
                    RNFS.outcome := JS.Ok 200%Z |} |} in
  let first := ModelUtils.downloadModel Samples.android Samples.testModel io Samples.emptyDisk in
  first.1.1 = JS.Ok "/storage/app/files/models/test.gguf"
  /\ RNFS.transfers first.1.2
     = [("https://example/test.gguf", "/storage/app/files/models/test.gguf")]
  /\ ModelUtils.downloadModel Samples.android Samples.testModel io first.1.2
     = (JS.Ok "/storage/app/files/models/test.gguf", first.1.2, []).
Proof.
  intros io first.
  assert (Hfirst : first = (JS.Ok "/storage/app/files/models/test.gguf", first.1.2, first.2)).
  { vm_compute. reflexivity. }
  split; [vm_compute; reflexivity|]. split; [vm_compute; reflexivity|].
  refine (proj1 (proj2 (proj2
            (downloadModel_idempotent Samples.android Samples.testModel io io
               Samples.emptyDisk first.1.2 _ first.2 Hfirst _)))).
  repeat split.
Defined.

(** ** Doubles *)

Section Doubles.
Import JS.

Lemma roundTiesToEven_nonneg (x : Q) : (0 <= x)%Q -> (0 <= roundTiesToEven x)%Z.
Proof.
  intros Hx. unfold roundTiesToEven.
  assert (Hf : (0 <= Qfloor x)%Z).
  { apply Z.le_trans with (Qfloor 0); [reflexivity|]. now apply Qfloor_resp_le. }
  destruct (Qcompare _ _); [destruct (Z.even _)| |]; lia.
Qed.

Lemma roundTiesToEven_le (x : Q) (N : Z) :
  (x <= inject_Z N)%Q -> (roundTiesToEven x <= N)%Z.
Proof.
  intros Hx. unfold roundTiesToEven.
  assert (Hf : (Qfloor x <= N)%Z).
  { rewrite <- (Qfloor_Z N). now apply Qfloor_resp_le. }
  assert (Hup : (x - inject_Z (Qfloor x) > 0)%Q -> (Qfloor x + 1 <= N)%Z).
  { intros Hfrac. assert (Hlt : (Qfloor x < N)%Z) by (rewrite Zlt_Qlt; lra). lia. }
  destruct (Qcompare (x - inject_Z (Qfloor x)) (1 # 2)) eqn:Hc.
  - apply Qeq_alt in Hc. destruct (Z.even _); [exact Hf|]. apply Hup. lra.
  - exact Hf.
  - apply Qgt_alt in Hc. apply Hup. lra.
Qed.

Lemma ulpExponent_nonpos (q : Q) :
  (0 < q)%Q -> (q <= inject_Z 128)%Q -> (ulpExponent q <= 0)%Z.
Proof.
  intros Hpos Hle. unfold ulpExponent.
  destruct q as [n d]. unfold Qlt, Qle in *.
  cbn [Qnum Qden inject_Z] in *. rewrite ?Z.mul_1_r in *.
  assert (Hn : (0 < n)%Z) by lia.
  assert (Hk : (Z.log2 n - Z.log2 (Z.pos d) <= 7)%Z).
  { assert (Hlog : (Z.log2 n <= Z.log2 (2 ^ 7 * Z.pos d))%Z)
      by (apply Z.log2_le_mono; change (2 ^ 7)%Z with 128%Z; lia).
    rewrite Z.mul_comm, Z.log2_mul_pow2 in Hlog; lia. }
  destruct (Qle_bool _ _); lia.
Qed.

Lemma pow2_nonpos (e : Z) :
  (e <= 0)%Z -> (0 < 2 ^ (- e))%Z /\ (pow2 e == / inject_Z (2 ^ (- e)))%Q.
Proof.
  intros He. assert (Hp : (0 < 2 ^ (- e))%Z) by (apply Z.pow_pos_nonneg; lia).
  split; [exact Hp|]. unfold pow2.
  destruct (Z.leb_spec 0 e).
  - replace e with 0%Z by lia. reflexivity.
  - destruct (2 ^ (- e))%Z as [|p|p] eqn:Hpw; try lia. reflexivity.
Qed.

Lemma roundPositive_bounded (q : Q) (R : Z) :
  (0 < q)%Q -> (q <= inject_Z R)%Q -> (R <= 128)%Z ->
  exists r, roundPositive q = Fin r /\ (0 <= r)%Q /\ (r <= inject_Z R)%Q.
Proof.
  intros Hpos Hle HR. unfold roundPositive.
  assert (He : (ulpExponent q <= 0)%Z).
  { apply ulpExponent_nonpos; [exact Hpos|].
    apply Qle_trans with (inject_Z R); [exact Hle|]. now rewrite <- Zle_Qle. }
  destruct (pow2_nonpos _ He) as [HP Hpow].
  set (P := (2 ^ (- ulpExponent q))%Z) in *.
  assert (HPq : (0 < inject_Z P)%Q) by (rewrite <- (Zlt_Qlt 0); exact HP).
  set (m := roundTiesToEven (q / pow2 (ulpExponent q))).
  assert (Hscaled : (q / pow2 (ulpExponent q) == q * inject_Z P)%Q).
  { rewrite Hpow. field. intros H0. rewrite H0 in HPq. now apply (Qlt_irrefl 0). }
  assert (Hm0 : (0 <= m)%Z).
  { apply roundTiesToEven_nonneg. rewrite Hscaled. apply Qmult_le_0_compat; lra. }
  assert (HmR : (m <= R * P)%Z).
  { apply roundTiesToEven_le. rewrite Hscaled, inject_Z_mult.
    apply Qmult_le_compat_r; lra. }
  assert (Hr : (Qred (inject_Z m * pow2 (ulpExponent q)) == inject_Z m / inject_Z P)%Q).
  { rewrite Qred_correct, Hpow. reflexivity. }
  assert (Hr0 : (0 <= Qred (inject_Z m * pow2 (ulpExponent q)))%Q).
  { rewrite Hr. apply Qle_shift_div_l; [exact HPq|]. rewrite Qmult_0_l.
    rewrite <- (Zle_Qle 0). exact Hm0. }
  assert (HrR : (Qred (inject_Z m * pow2 (ulpExponent q)) <= inject_Z R)%Q).
  { rewrite Hr. apply Qle_shift_div_r; [exact HPq|].
    rewrite <- inject_Z_mult, <- Zle_Qle. exact HmR. }
  destruct (Qle_bool (pow2 1024) _) eqn:Hover.
  - exfalso. apply Qle_bool_iff in Hover.
    assert (Hbig : (pow2 1024 <= inject_Z 128)%Q).
    { apply Qle_trans with (inject_Z R); [|now rewrite <- Zle_Qle].
      eapply Qle_trans; [exact Hover|exact HrR]. }
    change (pow2 1024) with (inject_Z (2 ^ 1024)) in Hbig.
    rewrite <- Zle_Qle in Hbig. apply Z.leb_le in Hbig.
    vm_compute in Hbig. discriminate Hbig.
  - eexists. split; [reflexivity|]. split; assumption.
Qed.

Lemma toDouble_bounded (q : Q) (R : Z) :
  (0 <= q)%Q -> (q <= inject_Z R)%Q -> (R <= 128)%Z ->
  exists r, toDouble q = Fin r /\ (0 <= r)%Q /\ (r <= inject_Z R)%Q.
Proof.
  intros Hpos Hle HR. unfold toDouble.
  destruct (Qcompare q 0) eqn:Hc.
  - apply Qeq_alt in Hc. exists 0%Q. split; [reflexivity|]. split; lra.
  - apply Qlt_alt in Hc. lra.
  - apply Qgt_alt in Hc. now apply roundPositive_bounded.
Qed.

(** The division and the product of the report {29, 200} are both rounded:
    the quotient is the double just below 0.145 and the item shows 14%. *)
Example percentage_29_of_200 :
  Math_round (mul_const (div_Z 29 200) 100) = of_Z 14.
Proof. vm_compute. reflexivity. Qed.

(** On these reports the quotient and the percentage are those of the
    binary64 arithmetic of the kernel. *)
Example toDouble_agrees_with_kernel :
  forallb (fun '(a, b) =>
             sameNumber (div_Z a b) (kernelQuotient a b)
             && sameNumber (mul_const (div_Z a b) 100) (kernelPercentage a b))
    [(29, 200); (1, 3); (2, 3); (1, 10); (7, 10); (57, 100); (512, 1024);
     (999, 1000); (1, 1); (0, 5); (1, 1000000007); (123456789, 1000000007);
     (1572864000, 1685774336); (4503599627370495, 4503599627370496);
     (9007199254740991, 3); (1, 9007199254740991)]%Z
  = true.
Proof. vm_compute. reflexivity. Qed.

End Doubles.

(** ** The download controller *)

Section Downloads.
Import JS ModelUtils ModelDownloader.

Lemma onProgress_marker (model : ModelInfo) (seen : list number) (st : State) :
  currentlyDownloading (fold_left (fun st p => onProgress model p st) seen st)
  = currentlyDownloading st.
Proof.
  revert st. induction seen as [|p seen IH]; intros st; cbn [fold_left]; [reflexivity|].
  now rewrite IH.
Qed.

Lemma downloading_marker (model : ModelInfo) (captured : gmap string number)
    (seen : list number) (s : State) :
  currentlyDownloading (downloading model captured seen s) = Some (localPath model).
Proof. unfold downloading. now rewrite onProgress_marker. Qed.

(** While the download of a model with a non-empty file name runs, the
    marker is set. *)
Lemma downloading_active (model : ModelInfo) (captured : gmap string number)
    (seen : list number) (s : State) :
  localPath model <> "" -> downloadActive (downloading model captured seen s) = true.
Proof.
  intros Hne. unfold downloadActive. rewrite downloading_marker. cbn.
  unfold truthy_string. destruct (String.eqb_spec (localPath model) ""); [contradiction|].
  reflexivity.
Qed.

Lemma availableModels_named :
  Forall (fun model => localPath model <> "") availableModels.
Proof. repeat constructor; discriminate. Qed.

(** While the marker is set, a request for any model is rejected:
    the 'Download in Progress' notice is the only effect, and the state,
    with its progress record and its marker, is unchanged. *)
Theorem single_flight (request : ModelInfo) (s : State) :
  downloadActive s = true ->
  let '(s', alerts) := handleDownload request s in
  alerts = [DownloadInProgress]
  /\ s' = s
  /\ downloadProgress s' = downloadProgress s
  /\ currentlyDownloading s' = currentlyDownloading s.
Proof.
  intros Hactive. unfold handleDownload. rewrite Hactive. repeat split.
Qed.

Lemma single_flight_witness :
  let gemma := {| name := "Gemma 2B Instruct"; size := "1.57GB";
                  url := "https://huggingface.co/lmstudio-community/gemma-2-2b-it-GGUF/resolve/main/gemma-2-2b-it-IQ4_XS.gguf";
                  localPath := "gemma-2-2b-it-IQ4_XS.gguf" |} in
  let s := downloading gemma ∅ [Fin (1 # 2)] initial in
  downloadActive s = true
  /\ (let '(s', alerts) := handleDownload Samples.testModel s in
      alerts = [DownloadInProgress]
      /\ s' = s
      /\ downloadProgress s' = downloadProgress s
      /\ currentlyDownloading s' = currentlyDownloading s).
Proof.
  intros gemma s.
  assert (H : downloadActive s = true) by reflexivity.
  split; [exact H|]. exact (single_flight Samples.testModel s H).
Defined.

(** C8, as the claim states it, fails: when the server sends no length
    the transport reports [contentLength = -1]; the fraction is then
    negative and so is the percentage shown. *)
Lemma progress_unknown_length_out_of_range :
  let res := {| RNFS.bytesWritten := 2048; RNFS.contentLength := -1 |} in
  let s := onProgress Samples.testModel (progress res)
             (startDownload Samples.testModel ∅ initial) in
  ~ isFraction (progress res)
  /\ renderModelItem Samples.testModel s = ProgressText (of_Z (-204800))
  /\ ~ showsPercentage (renderModelItem Samples.testModel s).
Proof.
  intros res s.
  assert (Hshown : renderModelItem Samples.testModel s = ProgressText (of_Z (-204800)))
    by (vm_compute; reflexivity).
  split; [|split; [exact Hshown|]].
  - vm_compute. intros [H _]. apply H. reflexivity.
  - rewrite Hshown. cbn. intros (n & Hn & Hrange).
    injection Hn as Hn. lia.
Qed.

Lemma round_percentage (y : Q) :
  (0 <= y)%Q -> (y <= 100)%Q -> (0 <= Qfloor (y + (1 # 2)) <= 100)%Z.
Proof.
  intros Hlo Hhi.
  assert (H0 : Qfloor 0 = 0%Z) by reflexivity.
  assert (H100 : Qfloor (201 # 2) = 100%Z) by reflexivity.
  split.
  - apply Z.le_trans with (Qfloor 0); [rewrite H0; lia|].
    apply Qfloor_resp_le. lra.
  - apply Z.le_trans with (Qfloor (201 # 2)); [|rewrite H100; lia].
    apply Qfloor_resp_le. lra.
Qed.

(** C8 (amended): nothing clamps; the fraction is [bytesWritten /
    contentLength] as the transport reports them and the item shows it
    times 100, rounded.  When the report has a positive length and a byte
    count between 0 and that length, the fraction lies in [0,1] and the item
    of the running download shows a whole percentage from 0 to 100. *)
Theorem progress_in_range (res : RNFS.DownloadProgress) (item : ModelInfo)
    (captured : gmap string number) (seen : list number) (s0 : State) :
  (0 < RNFS.contentLength res)%Z ->
  (0 <= RNFS.bytesWritten res <= RNFS.contentLength res)%Z ->
  isFraction (progress res)
  /\ showsPercentage
       (renderModelItem item
          (onProgress item (progress res) (downloading item captured seen s0))).
Proof.
  intros Hlen [Hlo Hhi].
  assert (Hfrac : exists q, progress res = Fin q /\ (0 <= q)%Q /\ (q <= 1)%Q).
  { unfold progress, div_Z. destruct (Z.eqb_spec (RNFS.contentLength res) 0); [lia|].
    assert (Hb : (0 < inject_Z (RNFS.contentLength res))%Q)
      by (rewrite <- (Zlt_Qlt 0); exact Hlen).
    apply (toDouble_bounded _ 1); [| |lia].
    - apply Qle_shift_div_l; [exact Hb|]. rewrite Qmult_0_l.
      rewrite <- (Zle_Qle 0). exact Hlo.
    - apply Qle_shift_div_r; [exact Hb|]. change (inject_Z 1) with 1%Q.
      rewrite Qmult_1_l, <- Zle_Qle. exact Hhi. }
  destruct Hfrac as (q & Hq & Hq0 & Hq1). rewrite Hq.
  split; [split; assumption|].
  unfold renderModelItem, onProgress.
  cbn [setDownloadProgress currentlyDownloading downloadProgress].
  rewrite downloading_marker, String.eqb_refl, lookup_insert_eq.
  cbn [or_number]. destruct (truthy_number (Fin q)).
  - cbn [mul_const].
    destruct (toDouble_bounded (q * 100) 100) as (y & Hy & Hy0 & Hy100);
      [lra|change (inject_Z 100) with 100%Q; lra|lia|].
    rewrite Hy. cbn [Math_round of_Z]. eexists. split; [reflexivity|].
    apply round_percentage; [exact Hy0|exact Hy100].
  - exists 0%Z. split; [reflexivity|lia].
Qed.

Lemma progress_in_range_witness :
  let res := {| RNFS.bytesWritten := 512; RNFS.contentLength := 1024 |} in
  (0 < RNFS.contentLength res)%Z
  /\ (0 <= RNFS.bytesWritten res <= RNFS.contentLength res)%Z
  /\ isFraction (progress res)
  /\ showsPercentage
       (renderModelItem Samples.testModel
          (onProgress Samples.testModel (progress res)
             (downloading Samples.testModel ∅ [] initial))).
Proof.
  intros res.
  assert (H1 : (0 < RNFS.contentLength res)%Z) by (cbn; lia).
  assert (H2 : (0 <= RNFS.bytesWritten res <= RNFS.contentLength res)%Z) by (cbn; lia).
  split; [exact H1|]. split; [exact H2|].
  exact (progress_in_range res Samples.testModel ∅ [] initial H1 H2).
Defined.

End Downloads.

(** ** One download at a time *)

Section SingleFlight.
Import JS ModelUtils ModelDownloader.

(** The three steps of [play] are the handler of the 'Download' button: a
    confirmation, the reports of the transfer and the end of the download
    leave the state [onPressDownload] returns. *)
Lemma play_download (platform : Platform) (model : ModelInfo)
    (captured : gmap string number) (io : IO) (s : State) (d : RNFS.Disk) :
  play (Confirm 0 :: map (Report 0) (downloadModel platform model io d).2 ++ [Finish 0])%list
    {| state := s; pending := [(model, captured)]; running := [] |}
  = {| state := (onPressDownload platform model captured io s d).1.1;
       pending := [];
       running := [] |}.
Proof.
  unfold onPressDownload.
  assert (Hreports : forall seen st,
             play (map (Report 0) seen ++ [Finish 0])%list
               {| state := st; pending := []; running := [model] |}
             = {| state := setCurrentlyDownloading None
                             (fold_left (fun st p => onProgress model p st) seen st);
                  pending := [];
                  running := [] |}).
  { induction seen as [|p seen IH]; intros st; [reflexivity|]. apply IH. }
  destruct (downloadModel platform model io d) as [[[path|err] d'] notified];
    cbn [fst snd]; apply Hreports.
Qed.






End SingleFlight.

(** ** The chat controller *)

Section Chat.
Import JS AIChat.

(** C7: when [generateResponse] fails, sending one message puts exactly
    two new entries in the list, the user's message and above it the fixed
    fallback message; the processing flag is false at the end and [onSend]
    itself completes without throwing. *)
Theorem onSend_generation_failure (message : IMessage) (r : Entropy)
    (engine : result string) (s : State) (service : LlamaService.t)
    (e e' : LlamaRn.Engine) (error : Error) :
  LlamaService.generateResponse (text message) None engine service e = (Throw error, e') ->
  let '(completed, s', e'') := onSend [message] r engine s service e in
  completed = Ok tt
  /\ messages s' = aiMessage r fallbackText :: message :: messages s
  /\ text (aiMessage r fallbackText) = fallbackText
  /\ length (messages s') = (2 + length (messages s))%nat
  /\ isProcessing s' = false
  /\ e'' = e'.
Proof.
  intros Hfail. unfold onSend. rewrite Hfail. cbn. repeat split.
Qed.

(** A message sent before the model was initialised. *)
Lemma onSend_generation_failure_witness :
  let r := {| randomId := "k3x9"; now := 1700000000500 |} in
  let s := {| messages := []; isProcessing := false; isInitialized := false;
              initError := None |} in
  let '(completed, s', _) :=
    onSend [Samples.hello] r (Ok "unused") s LlamaService.new LlamaRn.fresh in
  completed = Ok tt
  /\ messages s' = [aiMessage r fallbackText; Samples.hello]
  /\ isProcessing s' = false.
Proof.
  intros r s.
  pose proof (onSend_generation_failure Samples.hello r (Ok "unused") s
                LlamaService.new LlamaRn.fresh LlamaRn.fresh NotInitialized eq_refl) as H.
  destruct (onSend [Samples.hello] r (Ok "unused") s LlamaService.new LlamaRn.fresh)
    as [[completed s'] e''].
  destruct H as (H1 & H2 & _ & _ & H5 & _).
  split; [exact H1|]. split; [exact H2|exact H5].
Defined.

End Chat.

(** * Further properties of the code *)

(** ** The session manager over whole runs *)

Section ServiceRuns.
Import JS LlamaRn LlamaService.

Lemma completions_snoc_init (e : Engine) (p : InitParams) (l : list LlamaContext)
    (n : LlamaContext) :
  completions {| live := l; next := n; calls := (calls e ++ [CallInit p])%list |}
  = completions e.
Proof. unfold completions; simpl. rewrite omap_app; simpl. apply app_nil_r. Qed.

Lemma completions_snoc_release (e : Engine) (ctx : LlamaContext) (l : list LlamaContext)
    (n : LlamaContext) :
  completions {| live := l; next := n; calls := (calls e ++ [CallRelease ctx])%list |}
  = completions e.
Proof. unfold completions; simpl. rewrite omap_app; simpl. apply app_nil_r. Qed.

(** X1: [init] succeeds exactly when the merged options hold a non-empty model
    path and the engine loads the model.  The manager is then Ready, holds
    the context the engine returned, which is live, and has stored the path
    in its defaults. *)
Theorem init_outcome (options : option PartialLlamaOptions) (engine : result unit)
    (this : t) (e : Engine) :
  let path := mergedModelPath (merge (defaultOptions this) options) in
  let '(r, this', e') := init options engine this e in
  (r = true <-> truthy_opt truthy_string path = true /\ engine = Ok tt)
  /\ (r = true ->
        Ready this' /\ context this' = Some (next e) /\ next e ∈ live e'
        /\ Some (modelPath (defaultOptions this')) = path).
Proof.
  unfold init.
  destruct (mergedModelPath (merge (defaultOptions this) options)) as [path|]; cbn.
  - destruct (truthy_string path) eqn:Htruthy.
    + destruct engine as [[]|err]; cbn.
      * split; [tauto|]. intros _. unfold Ready; cbn.
        split; [eauto|]. split; [reflexivity|]. split; [set_solver|reflexivity].
      * split; [|discriminate]. split; [discriminate|]. intros [_ [=]].
    + split; [|discriminate]. split; [discriminate|]. intros [[=] _].
  - split; [|discriminate]. split; [discriminate|]. intros [[=] _].
Qed.

(** X2: The two ways [init] fails.  Without a usable model path it returns false,
    makes no call and leaves the manager as it was, Ready if it was Ready.
    When the engine fails it returns false and the manager is Uninitialized
    with its stored defaults untouched; a context it held before is dropped
    without a release and stays live. *)
Theorem init_failure (options : option PartialLlamaOptions) (engine : result unit)
    (this : t) (e : Engine) :
  let path := mergedModelPath (merge (defaultOptions this) options) in
  let '(r, this', e') := init options engine this e in
  (truthy_opt truthy_string path = false -> r = false /\ this' = this /\ e' = e)
  /\ (forall err, truthy_opt truthy_string path = true -> engine = Throw err ->
        r = false /\ isInitialized this' = false /\ context this' = None
        /\ defaultOptions this' = defaultOptions this
        /\ live e' = live e /\ releases e' = releases e).
Proof.
  unfold init.
  destruct (mergedModelPath (merge (defaultOptions this) options)) as [path|]; cbn.
  - destruct (truthy_string path) eqn:Htruthy.
    + destruct engine as [[]|err]; cbn.
      * split; [discriminate|]. intros err _ [=].
      * split; [discriminate|]. intros err' _ _.
        repeat split. unfold releases; cbn. rewrite omap_app; cbn. apply app_nil_r.
    + split; [auto|]. intros err [=].
  - split; [auto|]. intros err [=].
Qed.

Lemma init_failure_witness :
  let '(this, e) := Samples.boundTo "/models/a.gguf" in
  let '(r, this', e') :=
    init (Some (Samples.withModelPath (Some "/models/b.gguf")))
      (Throw (Foreign "cannot load")) this e in
  r = false /\ context this' = None /\ live e' = [0%nat].
Proof.
  pose proof (init_failure (Some (Samples.withModelPath (Some "/models/b.gguf")))
                (Throw (Foreign "cannot load"))
                (Samples.boundTo "/models/a.gguf").1 (Samples.boundTo "/models/a.gguf").2)
    as H.
  cbv zeta in H. cbn [Samples.boundTo] in *.
  destruct (init (Some (Samples.withModelPath (Some "/models/b.gguf")))
              (Throw (Foreign "cannot load"))
              (Samples.boundTo "/models/a.gguf").1 (Samples.boundTo "/models/a.gguf").2)
    as [[r this'] e'] eqn:Hinit.
  destruct H as [_ H].
  destruct (H (Foreign "cannot load") eq_refl eq_refl) as (H1 & _ & H3 & _ & H5 & _).
  change (let '(r0, this'0, e'0) :=
            init (Some (Samples.withModelPath (Some "/models/b.gguf")))
              (Throw (Foreign "cannot load"))
              (Samples.boundTo "/models/a.gguf").1 (Samples.boundTo "/models/a.gguf").2 in
          r0 = false /\ context this'0 = None /\ live e'0 = [0%nat]).
  rewrite Hinit. split; [exact H1|]. split; [exact H3|exact H5].
Defined.

Lemma step_wellFormed (st : t * Engine) (op : Op) : wellFormed st -> wellFormed (step st op).
Proof.
  destruct st as [this e]. intros [Hstate Hlive]. cbn [fst snd] in *.
  destruct op as [options engine|prompt options engine|engine]; cbn [step].
  - unfold init.
    destruct (mergedModelPath (merge (defaultOptions this) options)) as [path|];
      [|split; assumption].
    destruct (truthy_string path); [|split; assumption].
    destruct engine as [[]|err]; cbn; split; cbn.
    + left. split; [reflexivity|eauto].
    + intros ctx [= <-]. apply elem_of_cons. left. reflexivity.
    + right. split; reflexivity.
    + intros ctx [=].
  - split; [exact Hstate|]. cbn [fst snd]. intros ctx Hctx.
    specialize (Hlive ctx Hctx). unfold generateResponse.
    destruct (isInitialized this); [|exact Hlive].
    rewrite Hctx. unfold completion. destruct engine; exact Hlive.
  - unfold cleanup. destruct this as [flag [ctx|] defaults]; cbn [context] in *.
    + destruct engine as [[]|err]; cbn; split; cbn.
      * right. split; reflexivity.
      * intros ctx' [=].
      * exact Hstate.
      * exact Hlive.
    + split; cbn; [exact Hstate|]. intros ctx [=].
Qed.

(** X3: Whatever calls are made one after the other on a new service, and with
    whatever answers of the engine, the flag and the context agree (the
    manager is Ready, or the flag is false and the context null), and a
    context the manager holds was never released: it is live. *)
Theorem service_wellFormed (ops : list Op) :
  let st := run ops (LlamaService.new, LlamaRn.fresh) in
  (Ready st.1 \/ (isInitialized st.1 = false /\ context st.1 = None))
  /\ forall ctx, context st.1 = Some ctx -> ctx ∈ live st.2.
Proof.
  cbv zeta. change (wellFormed (run ops (LlamaService.new, LlamaRn.fresh))).
  assert (H0 : wellFormed (LlamaService.new, LlamaRn.fresh)).
  { split; cbn; [right; split; reflexivity|intros ctx [=]]. }
  revert H0. generalize (LlamaService.new, LlamaRn.fresh).
  unfold run. induction ops as [|op ops IH]; intros st Hst; cbn [fold_left]; [exact Hst|].
  apply IH. now apply step_wellFormed.
Qed.

Lemma or_number_truthy (v : option number) (d : number) :
  truthy_number d = true -> truthy_number (or_number v d) = true.
Proof.
  intros Hd. destruct v as [n|]; cbn; [|exact Hd].
  destruct (truthy_number n) eqn:Hn; assumption.
Qed.

Lemma step_sampling (st : t * Engine) (op : Op) :
  Forall samplingUsable (completions st.2) ->
  Forall samplingUsable (completions (step st op).2).
Proof.
  destruct st as [this e]. cbn [snd]. intros H.
  destruct op as [options engine|prompt options engine|engine]; cbn [step].
  - unfold init.
    destruct (mergedModelPath (merge (defaultOptions this) options)) as [path|];
      [|exact H].
    destruct (truthy_string path); [|exact H].
    destruct engine as [[]|err]; cbn -[completions]; rewrite completions_snoc_init; exact H.
  - cbn [snd]. unfold generateResponse.
    destruct (isInitialized this); [|exact H].
    destruct (context this) as [ctx|]; [|exact H].
    unfold completion. destruct engine; cbn [snd]; rewrite completions_snoc;
      (apply Forall_app; split; [exact H|]); repeat constructor; cbn;
      now apply or_number_truthy.
  - unfold cleanup. destruct (context this) as [ctx|]; [|exact H].
    destruct engine as [[]|err]; cbn -[completions]; rewrite completions_snoc_release;
      exact H.
Qed.

(** X4: No completion request ever carries a zero or NaN temperature or token
    budget, whatever options the callers pass: every request the engine
    receives has a truthy [temperature] and a truthy [n_predict]. *)
Theorem sampling_always_usable (ops : list Op) :
  Forall (fun p => truthy_number (LlamaRn.temperature p) = true
                   /\ truthy_number (n_predict p) = true)
    (completions (run ops (LlamaService.new, LlamaRn.fresh)).2).
Proof.
  change (Forall samplingUsable (completions (run ops (LlamaService.new, LlamaRn.fresh)).2)).
  assert (H0 : Forall samplingUsable (completions (LlamaService.new, LlamaRn.fresh).2))
    by constructor.
  revert H0. generalize (LlamaService.new, LlamaRn.fresh).
  unfold run. induction ops as [|op ops IH]; intros st Hst; cbn [fold_left]; [exact Hst|].
  apply IH. now apply step_sampling.
Qed.

End ServiceRuns.

(** ** Replies and prompts *)

Section Prompts.
Import JS LlamaRn LlamaService.

Lemma trimStart_first (s : string) (c : ascii) :
  first_unit (trimStart s) = Some c -> is_space c = false.
Proof.
  induction s as [|a s IH]; [discriminate|]. cbn [trimStart].
  destruct (is_space a) eqn:Ha; [exact IH|]. intros [= <-]. exact Ha.
Qed.

Lemma trimEnd_first (s : string) (c : ascii) :
  first_unit (trimEnd s) = Some c -> first_unit s = Some c.
Proof.
  destruct s as [|a s]; [discriminate|]. cbn [trimEnd].
  destruct (is_space a && String.eqb (trimEnd s) ""); [discriminate|]. auto.
Qed.

Lemma trimEnd_last (s : string) (c : ascii) :
  last_unit (trimEnd s) = Some c -> is_space c = false.
Proof.
  induction s as [|a s IH]; [discriminate|]. cbn [trimEnd].
  destruct (String.eqb_spec (trimEnd s) "") as [Hr|Hr].
  - rewrite Hr, andb_true_r. destruct (is_space a) eqn:Ha; [discriminate|].
    intros [= <-]. exact Ha.
  - rewrite andb_false_r. cbn [last_unit].
    destruct (trimEnd s) as [|b r]; [contradiction|]. exact IH.
Qed.

(** A reply never starts or ends with white space. *)
Lemma trim_ends (s : string) (c : ascii) :
  first_unit (trim s) = Some c \/ last_unit (trim s) = Some c -> is_space c = false.
Proof.
  unfold trim. intros [H|H].
  - apply trimEnd_first in H. now apply trimStart_first in H.
  - now apply trimEnd_last in H.
Qed.

(** The no-break space (code unit 160) is trimmed like the space. *)
Example trim_no_break_space :
  trim (String (ascii_of_nat 160) (" hello" ++ String (ascii_of_nat 160) LF)) = "hello".
Proof. reflexivity. Qed.

(** X5: On a Ready manager [generateResponse] makes one call to the engine and
    changes neither the manager nor the live contexts.  It returns the text
    of the engine trimmed, which neither starts nor ends with white space, or
    throws the very error the engine threw. *)
Theorem generateResponse_outcome (prompt : string) (options : option PartialLlamaOptions)
    (engine : result string) (this : t) (e : Engine) :
  Ready this ->
  let '(r, e') := generateResponse prompt options engine this e in
  live e' = live e
  /\ length (calls e') = S (length (calls e))
  /\ match engine with
     | Ok text =>
         r = Ok (trim text)
         /\ forall c, first_unit (trim text) = Some c \/ last_unit (trim text) = Some c ->
                      is_space c = false
     | Throw error => r = Throw error
     end.
Proof.
  intros [Hinit [ctx Hctx]]. unfold generateResponse. rewrite Hinit, Hctx.
  unfold completion. destruct engine as [text|error]; cbn [live calls].
  - split; [reflexivity|]. split; [rewrite length_app; cbn; lia|].
    split; [reflexivity|apply trim_ends].
  - split; [reflexivity|]. split; [rewrite length_app; cbn; lia|reflexivity].
Qed.

Lemma generateResponse_outcome_witness :
  let '(this, e) := Samples.boundTo "/models/a.gguf" in
  Ready this
  /\ (let '(r, e') := generateResponse "hi" None (Ok "  hello there ") this e in
      r = Ok "hello there" /\ live e' = live e).
Proof.
  assert (H : Ready (Samples.boundTo "/models/a.gguf").1).
  { split; [reflexivity|]. exists 0%nat. reflexivity. }
  split; [exact H|].
  pose proof (generateResponse_outcome "hi" None (Ok "  hello there ")
                (Samples.boundTo "/models/a.gguf").1 (Samples.boundTo "/models/a.gguf").2 H)
    as Hout.
  change (let '(r, e') :=
            generateResponse "hi" None (Ok "  hello there ")
              (Samples.boundTo "/models/a.gguf").1 (Samples.boundTo "/models/a.gguf").2 in
          r = Ok "hello there" /\ live e' = live (Samples.boundTo "/models/a.gguf").2).
  destruct (generateResponse "hi" None (Ok "  hello there ")
              (Samples.boundTo "/models/a.gguf").1 (Samples.boundTo "/models/a.gguf").2)
    as [r e'].
  destruct Hout as (Hlive & _ & Hr & _). split; [exact Hr|exact Hlive].
Defined.

Lemma split_first_eq (pat s : string) :
  split_first pat s
  = if String.prefix pat s then Some ("", drop (String.length pat) s)
    else match s with
         | EmptyString => None
         | String c s' =>
             match split_first pat s' with
             | Some (before, after) => Some (String c before, after)
             | None => None
             end
         end.
Proof. destruct s; reflexivity. Qed.

Lemma prefix_append (pat s : string) : String.prefix pat (pat ++ s) = true.
Proof.
  induction pat as [|c pat IH]; [destruct s; reflexivity|].
  rewrite append_cons. cbn [String.prefix].
  destruct (Ascii.ascii_dec c c); [exact IH|contradiction].
Qed.

Lemma drop_append (pat s : string) : drop (String.length pat) (pat ++ s) = s.
Proof.
  induction pat as [|c pat IH]; [reflexivity|]. rewrite append_cons. exact IH.
Qed.

Lemma length_append (a b : string) :
  String.length (a ++ b) = (String.length a + String.length b)%nat.
Proof.
  induction a as [|c a IH]; [reflexivity|]. rewrite append_cons. cbn. now rewrite IH.
Qed.

(** [split_first] cuts at the leftmost occurrence. *)
Lemma split_first_leftmost (pat s before after : string) :
  split_first pat s = Some (before, after) ->
  forall b a, s = b ++ pat ++ a -> (String.length before <= String.length b)%nat.
Proof.
  revert before. induction s as [|c s IH]; intros before H b a Hs;
    rewrite split_first_eq in H.
  - destruct (String.prefix pat ""); [|discriminate].
    injection H as <- _. cbn. lia.
  - destruct (String.prefix pat (String c s)) eqn:Hp.
    + injection H as <- _. cbn. lia.
    + destruct (split_first pat s) as [[b0 a0]|] eqn:Hrec; [|discriminate].
      injection H as <- <-.
      destruct b as [|c' b].
      * change ("" ++ pat ++ a) with (pat ++ a) in Hs.
        rewrite Hs, prefix_append in Hp. discriminate.
      * rewrite append_cons in Hs. injection Hs as _ Hs.
        specialize (IH b0 eq_refl b a Hs). cbn. lia.
Qed.

Lemma split_first_at_leftmost (pat before after : string) :
  (forall b a, before ++ pat ++ after = b ++ pat ++ a ->
               (String.length before <= String.length b)%nat) ->
  split_first pat (before ++ pat ++ after) = Some (before, after).
Proof.
  induction before as [|c before IH]; intros Hmin; rewrite split_first_eq.
  - change ("" ++ pat ++ after) with (pat ++ after).
    now rewrite prefix_append, drop_append.
  - destruct (String.prefix pat (String c before ++ pat ++ after)) eqn:Hp.
    + apply drop_prefix in Hp.
      specialize (Hmin "" _ Hp). cbn in Hmin. lia.
    + rewrite append_cons. rewrite IH; [reflexivity|].
      intros b a Hs. specialize (Hmin (String c b) a).
      rewrite !append_cons, Hs in Hmin. specialize (Hmin eq_refl). cbn in Hmin. lia.
Qed.

(** X6: For a prompt without a dollar sign, the request carries the template
    with its leftmost placeholder, and only that one, replaced by the prompt
    as it is: whatever follows, later placeholders included, is kept. *)
Theorem formatPrompt_leftmost (m : MergedOptions) (before after prompt : string) :
  mergedPromptTemplate m = Some (before ++ "{prompt}" ++ after) ->
  (forall b a, before ++ "{prompt}" ++ after = b ++ "{prompt}" ++ a ->
               (String.length before <= String.length b)%nat) ->
  dollar_free prompt = true ->
  formatPrompt m prompt = before ++ prompt ++ after.
Proof.
  intros Ht Hmin Hd. apply formatPrompt_literal; [exact Ht| |exact Hd].
  now apply split_first_at_leftmost.
Qed.

Lemma formatPrompt_leftmost_witness :
  formatPrompt
    (merge initialDefaultOptions (Some (Samples.withTemplate "<a>{prompt} or {prompt}")))
    "hi"
  = "<a>hi or {prompt}".
Proof.
  apply (formatPrompt_leftmost _ "<a>" " or {prompt}" "hi").
  - reflexivity.
  - apply (split_first_leftmost "{prompt}" "<a>{prompt} or {prompt}" "<a>" " or {prompt}").
    reflexivity.
  - reflexivity.
Defined.

(** X7: When the template has no placeholder the request carries the template
    alone and the prompt of the caller is not sent at all; when the template
    is empty or undefined the request carries the prompt alone. *)
Theorem formatPrompt_without_placeholder (m : MergedOptions) (prompt : string) :
  (mergedPromptTemplate m = None \/ mergedPromptTemplate m = Some "" ->
   formatPrompt m prompt = prompt)
  /\ (forall template,
        mergedPromptTemplate m = Some template -> template <> "" ->
        (forall b a, template <> b ++ "{prompt}" ++ a) ->
        formatPrompt m prompt = template).
Proof.
  unfold formatPrompt. split.
  - intros [-> | ->]; reflexivity.
  - intros template -> Hne Hnone.
    unfold truthy_string. destruct (String.eqb_spec template ""); [contradiction|].
    cbn [negb]. unfold replace.
    destruct (split_first "{prompt}" template) as [[b a]|] eqn:Hs; [|reflexivity].
    apply split_first_cut in Hs. now apply Hnone in Hs.
Qed.

Lemma split_first_complete (pat b a : string) : split_first pat (b ++ pat ++ a) <> None.
Proof.
  induction b as [|c b IH]; rewrite split_first_eq.
  - change ("" ++ pat ++ a) with (pat ++ a). now rewrite prefix_append.
  - destruct (String.prefix pat (String c b ++ pat ++ a)); [discriminate|].
    rewrite append_cons.
    destruct (split_first pat (b ++ pat ++ a)) as [[b0 a0]|]; [discriminate|].
    contradiction.
Qed.

Lemma formatPrompt_without_placeholder_witness :
  formatPrompt (merge initialDefaultOptions (Some (Samples.withTemplate "Answer briefly.")))
    "hi"
  = "Answer briefly.".
Proof.
  apply (proj2 (formatPrompt_without_placeholder _ "hi") "Answer briefly.").
  - reflexivity.
  - discriminate.
  - intros b a Hs.
    apply (split_first_complete "{prompt}" b a). rewrite <- Hs. reflexivity.
Defined.

End Prompts.

(** ** The model store, beyond the idempotence of a download *)

Section StoreMore.
Import JS RNFS ModelUtils.
Variable platform : Platform.

(** X8: [checkModelExists] never throws: it is true exactly when the check meets
    no I/O error and the path [getModelPath] gives for the name is on disk. *)
Theorem checkModelExists_spec (modelFileName : string) (fault : option Error) (d : Disk) :
  checkModelExists platform modelFileName fault d = true
  <-> fault = None /\ getModelPath platform modelFileName ∈ paths d.
Proof.
  unfold checkModelExists, exists_, getModelPath. destruct fault as [err|].
  - split; [discriminate|]. intros [[=] _].
  - rewrite bool_decide_eq_true. tauto.
Qed.

(** [ensureModelsDir] removes nothing and starts no transfer, and leaves
    the disk as it was when it throws. *)
Lemma ensureModelsDir_disk (existsFault mkdirFault : option Error) (d : Disk) :
  let '(r, d1) := ensureModelsDir platform existsFault mkdirFault d in
  paths d ⊆ paths d1
  /\ transfers d1 = transfers d
  /\ forall err, r = Throw err -> d1 = d.
Proof.
  unfold ensureModelsDir, exists_, mkdir.
  destruct existsFault; [split; [reflexivity|split; reflexivity]|].
  destruct (bool_decide (getModelsDir platform ∈ paths d));
    [split; [reflexivity|split; [reflexivity|discriminate]]|].
  destruct mkdirFault; [split; [reflexivity|split; reflexivity]|]. cbn.
  split; [apply union_subseteq_r|]. split; [reflexivity|discriminate].
Qed.

(** X9: A call of [ensureModelsDir] that succeeds leaves the directory on disk,
    removes nothing and starts no transfer; after it, a call whose existence
    check meets no error changes nothing, without calling [mkdir].  A call
    that throws leaves the disk as it was. *)
Theorem ensureModelsDir_idempotent (existsFault mkdirFault : option Error) (d : Disk) :
  let '(r, d1) := ensureModelsDir platform existsFault mkdirFault d in
  (r = Ok tt ->
     getModelsDir platform ∈ paths d1
     /\ paths d ⊆ paths d1
     /\ transfers d1 = transfers d
     /\ forall mkdirFault2, ensureModelsDir platform None mkdirFault2 d1 = (Ok tt, d1))
  /\ (forall err, r = Throw err -> d1 = d).
Proof.
  pose proof (ensureModelsDir_disk existsFault mkdirFault d) as Hdisk.
  destruct (ensureModelsDir platform existsFault mkdirFault d) as [r d1] eqn:Hcall.
  destruct Hdisk as (Hsub & Htr & Herr). split; [|exact Herr].
  intros ->. pose proof (ensureModelsDir_ok platform _ _ _ _ Hcall) as [Hdir _].
  split; [exact Hdir|]. split; [exact Hsub|]. split; [exact Htr|].
  intros mkdirFault2. unfold ensureModelsDir, exists_.
  now rewrite (bool_decide_eq_true_2 _ Hdir).
Qed.

(** X10: When the models directory cannot be ensured (its existence check fails,
    or it is missing and cannot be created), [downloadModel] throws that
    very error without starting a transfer or reporting progress, and
    [getLocalModels] returns the empty list. *)
Theorem directory_error (model : ModelInfo) (io : IO)
    (listing : result (list ReadDirItem)) (d : Disk) (err : Error) :
  existsDirFault io = Some err
  \/ (existsDirFault io = None /\ (getModelsDir platform ∉ paths d)
      /\ mkdirFault io = Some err) ->
  downloadModel platform model io d = (Throw err, d, [])
  /\ getLocalModels platform (existsDirFault io) (mkdirFault io) listing d = ([], d).
Proof.
  intros H.
  assert (Hdir : ensureModelsDir platform (existsDirFault io) (mkdirFault io) d
                 = (Throw err, d)).
  { unfold ensureModelsDir, exists_, mkdir. destruct H as [->|(-> & Hno & ->)].
    - reflexivity.
    - now rewrite (bool_decide_eq_false_2 _ Hno). }
  unfold downloadModel, getLocalModels. rewrite Hdir. split; reflexivity.
Qed.

(** X11: Every call of [downloadModel] removes nothing from the disk and starts
    one transfer at most, from the URL of the model to the path
    [getModelPath] gives for its file name; [onProgress] is called once for
    each report of that transfer, and not at all without a transfer. *)
Theorem downloadModel_transfers (model : ModelInfo) (io : IO) (d : Disk) :
  let '(_, d', notified) := downloadModel platform model io d in
  paths d ⊆ paths d'
  /\ ((transfers d' = transfers d /\ notified = [])
      \/ (transfers d' = (transfers d
                          ++ [(url model, getModelPath platform (localPath model))])%list
          /\ notified = map progress (reports (network io)))).
Proof.
  unfold downloadModel.
  pose proof (ensureModelsDir_disk (existsDirFault io) (mkdirFault io) d) as Hdir.
  destruct (ensureModelsDir platform (existsDirFault io) (mkdirFault io) d)
    as [[[]|err] d1]; destruct Hdir as (Hsub & Htr & Herr).
  - destruct (checkModelExists platform (localPath model) (existsFileFault io) d1).
    + split; [exact Hsub|]. left. split; [exact Htr|reflexivity].
    + unfold downloadFile.
      destruct (outcome (network io)) as [statusCode|err'].
      * destruct (statusCode =? 200)%Z; cbn; (split; [|right; now rewrite Htr]);
          (destruct ((200 <=? statusCode)%Z && (statusCode <? 300)%Z); [|exact Hsub]);
          (etransitivity; [exact Hsub|apply union_subseteq_r]).
      * cbn. split; [exact Hsub|]. right. now rewrite Htr.
  - rewrite (Herr err eq_refl).
    split; [reflexivity|]. left. split; reflexivity.
Qed.

(** A path [downloadModel] returns is the one [getModelPath] gives for the
    file name of the model, and it and the models directory are on disk. *)
Lemma downloadModel_ok_path (model : ModelInfo) (io : IO) (d d' : Disk)
    (path : string) (notified : list number) :
  downloadModel platform model io d = (Ok path, d', notified) ->
  path = getModelPath platform (localPath model)
  /\ path ∈ paths d'
  /\ getModelsDir platform ∈ paths d'.
Proof.
  intros Hcall. unfold downloadModel in Hcall.
  destruct (ensureModelsDir platform (existsDirFault io) (mkdirFault io) d)
    as [[[]|err] d1] eqn:Hdir; [|discriminate].
  apply ensureModelsDir_ok in Hdir as [Hdir _].
  destruct (checkModelExists platform (localPath model) (existsFileFault io) d1)
    eqn:Hexists.
  - injection Hcall as <- <- _.
    unfold checkModelExists, exists_ in Hexists.
    destruct (existsFileFault io); [discriminate|].
    apply bool_decide_eq_true in Hexists. repeat split; assumption.
  - unfold downloadFile in Hcall.
    destruct (outcome (network io)) as [statusCode|err]; [|discriminate].
    destruct (statusCode =? 200)%Z eqn:Hstatus; [|discriminate].
    apply Z.eqb_eq in Hstatus as ->.
    injection Hcall as <- <- _. cbn. split; [reflexivity|]. split.
    + apply elem_of_union. left. now apply elem_of_singleton.
    + apply elem_of_union. right. exact Hdir.
Qed.

Lemma getModelPath_not_dir (modelFileName : string) :
  getModelPath platform modelFileName <> getModelsDir platform.
Proof.
  unfold getModelPath. intros H. apply (f_equal String.length) in H.
  rewrite !length_append in H. cbn in H. lia.
Qed.

(** X12: When no file-system call fails, [downloadModel] returns a path exactly
    when the target file was on disk already or the transfer resolves with
    status 200; the path is the one [getModelPath] gives for the file name
    of the model, and the file and the models directory are then on disk. *)
Theorem downloadModel_succeeds_iff (model : ModelInfo) (io : IO) (d : Disk) :
  faultless io ->
  let path := getModelPath platform (localPath model) in
  let '(r, d', _) := downloadModel platform model io d in
  ((exists p, r = Ok p) <-> path ∈ paths d \/ outcome (network io) = Ok 200%Z)
  /\ (forall p, r = Ok p ->
        p = path /\ path ∈ paths d' /\ getModelsDir platform ∈ paths d').
Proof.
  intros (He & Hm & Hf). cbv zeta.
  destruct (downloadModel platform model io d) as [[r d'] notified] eqn:Hcall.
  split.
  - unfold downloadModel in Hcall. rewrite He, Hm, Hf in Hcall.
    unfold ensureModelsDir, exists_, mkdir in Hcall.
    assert (Hin : forall extra : gset string,
               extra = ∅ \/ extra = {[getModelsDir platform]} ->
               getModelPath platform (localPath model) ∈ extra ∪ paths d
               <-> getModelPath platform (localPath model) ∈ paths d).
    { intros extra [-> | ->]; rewrite elem_of_union; split; auto; intros [H|H]; auto.
      - now apply not_elem_of_empty in H.
      - apply elem_of_singleton in H. now apply getModelPath_not_dir in H. }
    assert (Hbody : forall d1,
               (getModelPath platform (localPath model) ∈ paths d1
                <-> getModelPath platform (localPath model) ∈ paths d) ->
               (if checkModelExists platform (localPath model) None d1
                then (Ok (getModelPath platform (localPath model)), d1, [])
                else
                  match downloadFile (url model)
                          (getModelPath platform (localPath model)) (network io) d1 with
                  | (Ok statusCode, d2) =>
                      if (statusCode =? 200)%Z
                      then (Ok (getModelPath platform (localPath model)), d2,
                            map progress (reports (network io)))
                      else (Throw (DownloadFailed statusCode), d2,
                            map progress (reports (network io)))
                  | (Throw error, d2) =>
                      (Throw error, d2, map progress (reports (network io)))
                  end) = (r, d', notified) ->
               (exists p, r = Ok p)
               <-> getModelPath platform (localPath model) ∈ paths d
                   \/ outcome (network io) = Ok 200%Z).
    { intros d1 Hd1 Hrun. unfold checkModelExists, exists_ in Hrun.
      fold (getModelPath platform (localPath model)) in Hrun.
      destruct (bool_decide (getModelPath platform (localPath model) ∈ paths d1))
        eqn:Hex.
      - apply bool_decide_eq_true in Hex. injection Hrun as <- _ _.
        split; [intros _; left; now apply Hd1|eauto].
      - apply bool_decide_eq_false in Hex. unfold downloadFile in Hrun.
        destruct (outcome (network io)) as [statusCode|error].
        + destruct (Z.eqb_spec statusCode 200) as [Hs|Hs]; injection Hrun as <- _ _.
          * split; [intros _; right; now rewrite Hs|eauto].
          * split; [intros [p [=]]|].
            intros [H|[= H]]; [now apply Hd1 in H|contradiction].
        + injection Hrun as <- _ _. split; [intros [p [=]]|].
          intros [H|[=]]. now apply Hd1 in H. }
    destruct (bool_decide (getModelsDir platform ∈ paths d)).
    + apply (Hbody d); [reflexivity|exact Hcall].
    + cbn in Hcall. eapply Hbody; [|exact Hcall]. cbn.
      apply (Hin {[getModelsDir platform]}). now right.
  - intros p ->. apply downloadModel_ok_path in Hcall as (Hp & Hfile & Hdir).
    subst p. split; [reflexivity|]. split; assumption.
Qed.

(** X13: When the existence check of the target file meets an I/O error, the
    file counts as missing: a transfer is started even if the file is on
    disk, and the result is that of the transfer. *)
Theorem existence_fault_retransfers (model : ModelInfo) (io : IO) (d : Disk) (err : Error) :
  getModelsDir platform ∈ paths d ->
  existsDirFault io = None ->
  existsFileFault io = Some err ->
  let path := getModelPath platform (localPath model) in
  let '(r, d', _) := downloadModel platform model io d in
  transfers d' = (transfers d ++ [(url model, path)])%list
  /\ r = match outcome (network io) with
         | Ok statusCode =>
             if (statusCode =? 200)%Z then Ok path else Throw (DownloadFailed statusCode)
         | Throw error => Throw error
         end.
Proof.
  intros Hdir He Hf. unfold downloadModel. rewrite He, Hf.
  unfold ensureModelsDir, exists_. rewrite (bool_decide_eq_true_2 _ Hdir).
  unfold checkModelExists, exists_, downloadFile.
  destruct (outcome (network io)) as [statusCode|error].
  - destruct (statusCode =? 200)%Z; split; reflexivity.
  - split; reflexivity.
Qed.

End StoreMore.

Lemma directory_error_witness :
  let io := {| ModelUtils.existsDirFault := None;
               ModelUtils.mkdirFault := Some (JS.Foreign "EACCES");
               ModelUtils.existsFileFault := None;
               ModelUtils.network := {| RNFS.reports := []; RNFS.outcome := JS.Ok 200%Z |} |} in
  ModelUtils.downloadModel Samples.android Samples.testModel io Samples.emptyDisk
  = (JS.Throw (JS.Foreign "EACCES"), Samples.emptyDisk, []).
Proof.
  intros io.
  refine (proj1 (directory_error Samples.android Samples.testModel io (JS.Ok [])
                   Samples.emptyDisk (JS.Foreign "EACCES") _)).
  right. split; [reflexivity|]. split; [|reflexivity].
  cbn. apply not_elem_of_empty.
Defined.

Lemma existence_fault_retransfers_witness :
  let path := "/storage/app/files/models/test.gguf" in
  let d := {| RNFS.paths := {["/storage/app/files/models"; path]};
              RNFS.transfers := [] |} in
  let io := {| ModelUtils.existsDirFault := None;
               ModelUtils.mkdirFault := None;
               ModelUtils.existsFileFault := Some (JS.Foreign "EIO");
               ModelUtils.network := {| RNFS.reports := []; RNFS.outcome := JS.Ok 200%Z |} |} in
  path ∈ RNFS.paths d
  /\ (let '(r, d', _) := ModelUtils.downloadModel Samples.android Samples.testModel io d in
      RNFS.transfers d' = [("https://example/test.gguf", path)] /\ r = JS.Ok path).
Proof.
  intros path d io. split.
  - apply elem_of_union. right. now apply elem_of_singleton.
  - refine (existence_fault_retransfers Samples.android Samples.testModel io d
              (JS.Foreign "EIO") _ eq_refl eq_refl).
    apply elem_of_union. left. now apply elem_of_singleton.
Defined.

Lemma downloadModel_succeeds_iff_witness :
  let io := {| ModelUtils.existsDirFault := None;
               ModelUtils.mkdirFault := None;
               ModelUtils.existsFileFault := None;
               ModelUtils.network := {| RNFS.reports := []; RNFS.outcome := JS.Ok 200%Z |} |} in
  ModelUtils.faultless io
  /\ exists p,
       (ModelUtils.downloadModel Samples.android Samples.testModel io Samples.emptyDisk).1.1
       = JS.Ok p.
Proof.
  intros io.
  assert (H : ModelUtils.faultless io) by (repeat split).
  split; [exact H|].
  pose proof (downloadModel_succeeds_iff Samples.android Samples.testModel io
                Samples.emptyDisk H) as Hiff.
  cbv zeta in Hiff.
  destruct (ModelUtils.downloadModel Samples.android Samples.testModel io Samples.emptyDisk)
    as [[r d'] notified].
  destruct Hiff as [[_ Hiff] _]. apply Hiff. right. reflexivity.
Defined.

(** ** Listing the local models *)

Section Listing.
Import JS RNFS ModelUtils.
Variable platform : Platform.

Lemma drop_cut (k : nat) (s : string) : exists pre, s = pre ++ drop k s.
Proof.
  revert s. induction k as [|k IH]; intros s; [exists ""; reflexivity|].
  destruct s as [|c s]; [exists ""; reflexivity|].
  destruct (IH s) as [pre Hpre]. exists (String c pre).
  rewrite append_cons. cbn [drop]. now rewrite <- Hpre.
Qed.

(** [endsWith] is true exactly of the strings that end with the suffix. *)
Lemma endsWith_spec (s suffix : string) :
  endsWith s suffix = true <-> exists stem, s = stem ++ suffix.
Proof.
  unfold endsWith. split.
  - intros H. apply andb_true_iff in H as [_ H]. apply String.eqb_eq in H.
    destruct (drop_cut (String.length s - String.length suffix) s) as [pre Hpre].
    exists pre. now rewrite H in Hpre.
  - intros [stem ->]. rewrite length_append. apply andb_true_iff. split.
    + apply Nat.leb_le. lia.
    + replace (String.length stem + String.length suffix - String.length suffix)%nat
        with (String.length stem) by lia.
      rewrite drop_append. apply String.eqb_refl.
Qed.

(** X14: [getLocalModels] never throws and removes nothing from the disk.  It
    returns the empty list when the directory cannot be ensured or cannot be
    read; otherwise it returns, in the order of the listing, the names of
    the entries that are files and end with [.gguf], and nothing else. *)
Theorem getLocalModels_spec (existsFault mkdirFault : option Error)
    (listing : result (list ReadDirItem)) (d : Disk) :
  let '(names, d') := getLocalModels platform existsFault mkdirFault listing d in
  paths d ⊆ paths d'
  /\ transfers d' = transfers d
  /\ (forall err, listing = Throw err -> names = [])
  /\ (forall err, (ensureModelsDir platform existsFault mkdirFault d).1 = Throw err ->
                  names = [])
  /\ (forall files,
        listing = Ok files ->
        (ensureModelsDir platform existsFault mkdirFault d).1 = Ok tt ->
        names = map RNFS.name
                  (List.filter (fun file => isFile file && endsWith (RNFS.name file) ".gguf")
                     files))
  /\ (forall n, In n names ->
        (exists stem, n = stem ++ ".gguf")
        /\ exists files file,
             listing = Ok files /\ In file files /\ RNFS.name file = n /\ isFile file = true).
Proof.
  unfold getLocalModels, readDir.
  pose proof (ensureModelsDir_disk platform existsFault mkdirFault d) as Hdir.
  destruct (ensureModelsDir platform existsFault mkdirFault d) as [[[]|err] d1]; cbn [fst];
    destruct Hdir as (Hsub & Htr & Herr).
  - destruct listing as [files|err].
    + split; [exact Hsub|]. split; [exact Htr|].
      split; [discriminate|]. split; [discriminate|].
      split; [intros files' [= <-] _; reflexivity|].
      intros n Hn. apply in_map_iff in Hn as (file & <- & Hfile).
      apply filter_In in Hfile as [Hin Hkeep].
      apply andb_true_iff in Hkeep as [Hisfile Hends].
      split; [now apply endsWith_spec|]. exists files, file. auto.
    + split; [exact Hsub|]. split; [exact Htr|].
      split; [reflexivity|]. split; [reflexivity|].
      split; [discriminate|]. intros n [].
  - rewrite (Herr err eq_refl).
    split; [reflexivity|]. split; [reflexivity|].
    split; [reflexivity|]. split; [reflexivity|].
    split; [discriminate|]. intros n [].
Qed.

End Listing.

(** ** A download from its confirmation to its end *)

Section DownloadRuns.
Import JS ModelUtils ModelDownloader.
Variable platform : Platform.

Lemma onProgress_modal (model : ModelInfo) (seen : list number) (st : State) :
  modalVisible (fold_left (fun st p => onProgress model p st) seen st) = modalVisible st.
Proof.
  revert st. induction seen as [|p seen IH]; intros st; cbn [fold_left]; [reflexivity|].
  now rewrite IH.
Qed.

Lemma last_cons_default {A : Type} (l : list A) (x d d' : A) :
  List.last (x :: l) d = List.last (x :: l) d'.
Proof.
  revert x. induction l as [|y l IH]; intros x; [reflexivity|].
  change (List.last (y :: l) d = List.last (y :: l) d'). apply IH.
Qed.

Lemma onProgress_record (model : ModelInfo) (captured : gmap string number)
    (seen : list number) (st : State) (v : number) :
  downloadProgress st = <[localPath model := v]> captured ->
  downloadProgress (fold_left (fun st p => onProgress model p st) seen st)
  = <[localPath model := List.last seen v]> captured.
Proof.
  revert st v. induction seen as [|p seen IH]; intros st v Hst; [exact Hst|].
  cbn [fold_left]. rewrite (IH _ p).
  - destruct seen as [|n seen]; [reflexivity|].
    now rewrite (last_cons_default seen n p v).
  - cbn. rewrite Hst. apply insert_insert_eq.
Qed.

(** While a download runs, the progress record is the one captured when the
    request was made, with the entry of the model at the last fraction
    reported (at 0 before the first report). *)
Lemma downloading_record (model : ModelInfo) (captured : gmap string number)
    (seen : list number) (s : State) :
  downloadProgress (downloading model captured seen s)
  = <[localPath model := List.last seen (of_Z 0)]> captured.
Proof. unfold downloading. now apply onProgress_record. Qed.

(** X15: However a confirmed download ends, the marker is cleared when it ends:
    no download is active afterwards, the next request, for any model, is
    not rejected but asks for confirmation, and the modal is as it was. *)
Theorem download_releases_lock (model : ModelInfo) (captured : gmap string number)
    (io : IO) (s : State) (d : RNFS.Disk) :
  let '(s', _, _) := onPressDownload platform model captured io s d in
  currentlyDownloading s' = None
  /\ downloadActive s' = false
  /\ modalVisible s' = modalVisible s
  /\ forall request,
       handleDownload request s' = (s', [ConfirmDownload request (downloadProgress s')]).
Proof.
  unfold onPressDownload.
  destruct (downloadModel platform model io d) as [[[path|err] d'] notified];
    (split; [reflexivity|]); (split; [reflexivity|]);
    (split; [cbn; unfold downloading; now rewrite onProgress_modal|]);
    intros request; reflexivity.
Qed.

(** X16: A confirmed download raises exactly one notice when it ends: 'Download
    Complete' with the path of the file, which is then on disk, when
    [downloadModel] returned it, and 'Download Failed' with the error thrown
    otherwise.  The progress record it leaves is the record captured at the
    request, with the entry of the model at the last fraction reported. *)
Theorem download_outcome (model : ModelInfo) (captured : gmap string number)
    (io : IO) (s : State) (d : RNFS.Disk) :
  let '(r, d0, notified) := downloadModel platform model io d in
  let '(s', d', alerts) := onPressDownload platform model captured io s d in
  d' = d0
  /\ downloadProgress s' = <[localPath model := List.last notified (of_Z 0)]> captured
  /\ match r with
     | Ok path =>
         alerts = [DownloadComplete model path]
         /\ path = getModelPath platform (localPath model)
         /\ path ∈ RNFS.paths d'
     | Throw error => alerts = [DownloadFailedAlert error]
     end.
Proof.
  unfold onPressDownload.
  destruct (downloadModel platform model io d) as [[[path|err] d0] notified] eqn:Hcall.
  - split; [reflexivity|]. split; [apply downloading_record|].
    apply downloadModel_ok_path in Hcall as (Hpath & Hfile & _).
    split; [reflexivity|]. split; assumption.
  - split; [reflexivity|]. split; [apply downloading_record|reflexivity].
Qed.

(** X17: While a download runs, the items whose file name is that of the model
    show a percentage, 0% until the first report, and every other item
    shows its 'Download' button; once the download has ended every item
    shows the button. *)
Theorem items_during_download (model item : ModelInfo) (captured : gmap string number)
    (seen : list number) (io : IO) (s : State) (d : RNFS.Disk) :
  (localPath item = localPath model ->
     exists percent,
       renderModelItem item (downloading model captured seen s) = ProgressText percent)
  /\ renderModelItem model (downloading model captured [] s) = ProgressText (of_Z 0)
  /\ (localPath item <> localPath model ->
        renderModelItem item (downloading model captured seen s) = DownloadButton)
  /\ renderModelItem item (onPressDownload platform model captured io s d).1.1
     = DownloadButton.
Proof.
  split; [|split; [|split]].
  - intros Heq. unfold renderModelItem. rewrite downloading_marker, Heq, String.eqb_refl.
    eexists. reflexivity.
  - unfold renderModelItem. rewrite downloading_marker, downloading_record, String.eqb_refl.
    rewrite lookup_insert_eq. reflexivity.
  - intros Hne. unfold renderModelItem. rewrite downloading_marker.
    destruct (String.eqb_spec (localPath model) (localPath item)) as [Heq|_];
      [now symmetry in Heq|reflexivity].
  - unfold onPressDownload.
    destruct (downloadModel platform model io d) as [[[path|err] d'] notified];
      reflexivity.
Qed.

End DownloadRuns.

Lemma items_during_download_witness :
  let gemma := {| ModelUtils.name := "Gemma 2B Instruct"; ModelUtils.size := "1.57GB";
                  ModelUtils.url := "https://huggingface.co/lmstudio-community/gemma-2-2b-it-GGUF/resolve/main/gemma-2-2b-it-IQ4_XS.gguf";
                  ModelUtils.localPath := "gemma-2-2b-it-IQ4_XS.gguf" |} in
  let s := ModelDownloader.downloading gemma ∅ [JS.Fin (1 # 4)] ModelDownloader.initial in
  ModelDownloader.renderModelItem Samples.testModel s = ModelDownloader.DownloadButton
  /\ exists percent,
       ModelDownloader.renderModelItem gemma s = ModelDownloader.ProgressText percent.
Proof.
  intros gemma s.
  pose proof (items_during_download Samples.android gemma Samples.testModel ∅
                [JS.Fin (1 # 4)]
                {| ModelUtils.existsDirFault := None; ModelUtils.mkdirFault := None;
                   ModelUtils.existsFileFault := None;
                   ModelUtils.network := {| RNFS.reports := []; RNFS.outcome := JS.Ok 200%Z |} |}
                ModelDownloader.initial Samples.emptyDisk) as (_ & _ & Hother & _).
  pose proof (items_during_download Samples.android gemma gemma ∅
                [JS.Fin (1 # 4)]
                {| ModelUtils.existsDirFault := None; ModelUtils.mkdirFault := None;
                   ModelUtils.existsFileFault := None;
                   ModelUtils.network := {| RNFS.reports := []; RNFS.outcome := JS.Ok 200%Z |} |}
                ModelDownloader.initial Samples.emptyDisk) as (Hsame & _).
  split; [apply Hother; discriminate|apply Hsame; reflexivity].
Defined.

(** ** The chat controller, beyond a failing generation *)

Section ChatMore.
Import JS AIChat.

Lemma trimStart_fixed (s : string) :
  (forall c, first_unit s = Some c -> is_space c = false) -> trimStart s = s.
Proof.
  destruct s as [|a s]; [reflexivity|]. intros H. cbn [trimStart].
  now rewrite (H a eq_refl).
Qed.

Lemma trimEnd_fixed (s : string) :
  (forall c, last_unit s = Some c -> is_space c = false) -> trimEnd s = s.
Proof.
  induction s as [|a s IH]; [reflexivity|]. intros H. cbn [trimEnd].
  destruct s as [|b s].
  - cbn. now rewrite (H a eq_refl).
  - rewrite IH by (intros c Hc; apply H; exact Hc).
    now rewrite andb_false_r.
Qed.

(** Trimming a trimmed text changes nothing. *)
Lemma trim_idempotent (s : string) : trim (trim s) = trim s.
Proof.
  unfold trim at 1.
  rewrite trimStart_fixed by (intros c Hc; apply (trim_ends s); now left).
  apply trimEnd_fixed. intros c Hc. apply (trim_ends s). now right.
Qed.





Lemma modelPathOption_merge (d : LlamaService.LlamaOptions) (modelPath : option string) :
  LlamaService.mergedModelPath (LlamaService.merge d (Some (modelPathOption modelPath)))
  = modelPath.
Proof. reflexivity. Qed.

(** X20: The effect always passes a [modelPath] key, so the path stored in the
    service plays no part: the chat is initialised exactly when the prop is
    a non-empty path and the engine loads the model.  It then shows the
    welcome message alone (earlier messages are dropped), has no error, and
    the service is Ready with the context of the model at that path.
    Otherwise the error text is set and the messages are left as they
    were. *)
Theorem initLlama_outcome (modelPath : option string) (welcomeMessage : string) (now : Z)
    (engine : result unit) (s : State) (service : LlamaService.t) (e : LlamaRn.Engine) :
  let '(s', service', e') := initLlama modelPath welcomeMessage now engine s service e in
  isProcessing s' = isProcessing s
  /\ (isInitialized s' = true
      <-> exists path, modelPath = Some path /\ path <> "" /\ engine = Ok tt)
  /\ (isInitialized s' = true ->
        messages s' = [welcome welcomeMessage now]
        /\ initError s' = None
        /\ LlamaService.Ready service'
        /\ exists params, LlamaRn.calls e' = (LlamaRn.calls e ++ [LlamaRn.CallInit params])%list
                          /\ Some (LlamaRn.model params) = modelPath)
  /\ (isInitialized s' = false ->
        messages s' = messages s
        /\ initError s' = Some "Failed to initialize the AI model").
Proof.
  unfold initLlama, LlamaService.init. rewrite modelPathOption_merge.
  destruct modelPath as [path|].
  - unfold truthy_string. destruct (String.eqb_spec path "") as [->|Hne]; cbn [negb].
    + cbn. split; [reflexivity|]. split; [|split; [discriminate|auto]].
      split; [discriminate|]. intros (p & [= <-] & Hp & _). contradiction.
    + destruct engine as [[]|err]; cbn.
      * split; [reflexivity|]. split; [split; eauto|].
        split; [|discriminate]. intros _.
        split; [reflexivity|]. split; [reflexivity|].
        split; [split; [reflexivity|eauto]|]. eexists. split; reflexivity.
      * split; [reflexivity|]. split; [|split; [discriminate|auto]].
        split; [discriminate|]. intros (p & _ & _ & [=]).
  - cbn. split; [reflexivity|]. split; [|split; [discriminate|auto]].
    split; [discriminate|]. intros (p & [=] & _).
Qed.

Lemma step_errorHidden (w : World) (ev : Event) :
  errorHidden w.1.1 -> errorHidden (step w ev).1.1.
Proof.
  destruct w as [[s service] e]. cbn [fst]. intros H.
  destruct ev as [modelPath welcomeMessage now engine|engine|newMessages r engine];
    cbn [step].
  - unfold initLlama.
    destruct (LlamaService.init (Some (modelPathOption modelPath)) engine service e)
      as [[[] service'] e']; cbn [fst]; [left|right]; reflexivity.
  - destruct (LlamaService.cleanup engine service e) as [[c service'] e']. exact H.
  - unfold onSend. destruct newMessages as [|first rest]; [exact H|].
    destruct (LlamaService.generateResponse (text first) None engine service e)
      as [[response|error] e']; exact H.
Qed.

(** X21: The footer never shows the initialisation error.  Whatever happens to a
    mounted chat, each handler running to its end before the next starts, the error is set only while the chat counts as not
    initialised, and then the footer is the large spinner: a model that
    failed to load looks like a model that is still loading. *)
Theorem footer_never_shows_error (events : list Event) (service : LlamaService.t)
    (e : LlamaRn.Engine) (message : string) :
  renderFooter (run events (AIChat.initial, service, e)).1.1 <> ErrorText message.
Proof.
  assert (Hrun : errorHidden (run events (AIChat.initial, service, e)).1.1).
  { assert (H0 : errorHidden (AIChat.initial, service, e).1.1) by (left; reflexivity).
    revert H0. generalize (AIChat.initial, service, e).
    unfold run. induction events as [|ev events IH]; intros w Hw; cbn [fold_left];
      [exact Hw|].
    apply IH. now apply step_errorHidden. }
  unfold renderFooter.
  destruct Hrun as [Hnone|Hfalse].
  - rewrite Hnone. destruct (negb _); [discriminate|].
    destruct (isProcessing _); discriminate.
  - rewrite Hfalse. discriminate.
Qed.

(** What the effect leaves when the prop is a non-empty path and the engine
    loads the model. *)
Lemma initLlama_loaded (path welcomeMessage : string) (now : Z) (s : State)
    (service : LlamaService.t) (e : LlamaRn.Engine) :
  path <> "" ->
  exists service1 e1 ctx,
    initLlama (Some path) welcomeMessage now (Ok tt) s service e
    = ({| messages := [welcome welcomeMessage now];
          isProcessing := isProcessing s;
          isInitialized := true;
          initError := None |}, service1, e1)
    /\ LlamaService.isInitialized service1 = true
    /\ LlamaService.context service1 = Some ctx.
Proof.
  intros Hne. unfold initLlama, LlamaService.init. rewrite modelPathOption_merge.
  unfold truthy_string. destruct (String.eqb_spec path "") as [|_]; [contradiction|].
  cbn. do 3 eexists. split; [reflexivity|]. split; reflexivity.
Qed.

(** X22: A chat bound to a non-empty path whose model loads, then one message
    sent and answered: the list is the reply, the message and the welcome
    message; the reply is the text of the engine trimmed (the second [trim]
    of [onSend] changes nothing); the footer is empty. *)
Theorem chat_round_trip (path welcomeMessage : string) (now : Z) (message : IMessage)
    (r : Entropy) (generated : string) (s : State) (service : LlamaService.t)
    (e : LlamaRn.Engine) :
  path <> "" ->
  let '(s1, service1, e1) :=
    initLlama (Some path) welcomeMessage now (Ok tt) s service e in
  let '(completed, s2, e2) := onSend [message] r (Ok generated) s1 service1 e1 in
  completed = Ok tt
  /\ messages s2
     = [aiMessage r (trim generated); message; welcome welcomeMessage now]
  /\ renderFooter s2 = NoFooter.
Proof.
  intros Hne.
  destruct (initLlama_loaded path welcomeMessage now s service e Hne)
    as (service1 & e1 & ctx & -> & Hflag & Hctx).
  unfold onSend, LlamaService.generateResponse. rewrite Hflag, Hctx. cbn.
  rewrite trim_idempotent. repeat split.
Qed.

Lemma chat_round_trip_witness :
  let r := {| randomId := "k3x9"; now := 1700000000500 |} in
  let '(s1, service1, e1) :=
    initLlama (Some "/models/a.gguf") "Hello!" 1700000000000 (Ok tt)
      AIChat.initial LlamaService.new LlamaRn.fresh in
  let '(completed, s2, e2) := onSend [Samples.hello] r (Ok " hi there ") s1 service1 e1 in
  completed = Ok tt
  /\ messages s2
     = [aiMessage r (trim " hi there "); Samples.hello; welcome "Hello!" 1700000000000]
  /\ renderFooter s2 = NoFooter.
Proof.
  intros r.
  refine (chat_round_trip "/models/a.gguf" "Hello!" 1700000000000 Samples.hello r
            " hi there " AIChat.initial LlamaService.new LlamaRn.fresh _).
  discriminate.
Defined.

End ChatMore.

(** ** The application shell *)

Section Shell.
Import JS ModelUtils App.
Variable platform : Platform.

Lemma getModelPath_truthy (modelFileName : string) :
  truthy_string (getModelPath platform modelFileName) = true.
Proof.
  unfold truthy_string, getModelPath.
  destruct (String.eqb_spec (getModelsDir platform ++ "/" ++ modelFileName) "") as [H|];
    [|reflexivity].
  apply (f_equal String.length) in H. rewrite !length_append in H. cbn in H. lia.
Qed.

(** X23: The start-up check always ends with the loading flag false.  When
    [getLocalModels] finds nothing (no model file, or an I/O error) the shell
    raises the 'No Models Found' notice and shows the error screen with the
    downloader; otherwise it raises nothing and shows the chat bound to the
    first name found, in the models directory. *)
Theorem checkModels_outcome (existsFault mkdirFault : option Error)
    (listing : result (list RNFS.ReadDirItem)) (d : RNFS.Disk) :
  let '(names, d0) := getLocalModels platform existsFault mkdirFault listing d in
  let '(s', d', alerts) :=
    checkModels platform existsFault mkdirFault listing App.initial d in
  d' = d0
  /\ isLoading s' = false
  /\ match names with
     | [] => render s' = ErrorScreen noModelsError /\ alerts = [NoModelsFound]
     | modelFile :: _ =>
         render s' = ChatScreen (getModelPath platform modelFile) /\ alerts = []
     end.
Proof.
  unfold checkModels.
  destruct (getLocalModels platform existsFault mkdirFault listing d) as [[|f names] d0].
  - repeat split.
  - split; [reflexivity|]. split; [reflexivity|]. split; [|reflexivity].
    unfold render, renderChat; cbn. now rewrite getModelPath_truthy.
Qed.

(** X24: From a download to the chat: when a confirmed download ends with the
    'Download Complete' notice and the user presses OK, the modal closes and
    the shell shows the chat bound to the path [getModelPath] gives for the
    file name of the model, whether the downloader was on the error screen
    or on the 'Please add a language model' screen. *)
Theorem chat_after_download (model : ModelInfo) (captured : gmap string number) (io : IO)
    (sd : ModelDownloader.State) (s : App.State) (d : RNFS.Disk) (path : string) :
  isLoading s = false ->
  (ModelDownloader.onPressDownload platform model captured io sd d).2
  = [ModelDownloader.DownloadComplete model path] ->
  let '(sd', handed) :=
    ModelDownloader.onPressOK path
      (ModelDownloader.onPressDownload platform model captured io sd d).1.1 in
  ModelDownloader.modalVisible sd' = false
  /\ ModelDownloader.currentlyDownloading sd' = None
  /\ render (onModelDownloaded handed s)
     = ChatScreen (getModelPath platform (localPath model))
  /\ (render s = AddModelScreen ->
      render (onModelDownloadedAdd handed s)
      = ChatScreen (getModelPath platform (localPath model))).
Proof.
  intros Hloaded Halert. unfold ModelDownloader.onPressDownload in *.
  destruct (downloadModel platform model io d) as [[[path'|err] d0] notified] eqn:Hcall;
    cbn [fst snd] in *; [|discriminate Halert].
  injection Halert as ->.
  apply downloadModel_ok_path in Hcall as (Hpath & _).
  assert (Hmarker : ModelDownloader.currentlyDownloading
                      (ModelDownloader.setModalVisible false
                         (ModelDownloader.setCurrentlyDownloading None
                            (ModelDownloader.downloading model captured notified sd)))
                    = None) by reflexivity.
  unfold ModelDownloader.onPressOK. split; [reflexivity|]. split; [exact Hmarker|].
  split.
  - unfold render, renderChat, onModelDownloaded; cbn. rewrite Hloaded.
    now rewrite Hpath, getModelPath_truthy.
  - unfold render, renderChat, onModelDownloadedAdd; cbn. rewrite Hloaded.
    rewrite Hpath, getModelPath_truthy.
    destruct (error s) as [message|]; [|reflexivity].
    destruct (truthy_string message); [discriminate|reflexivity].
Qed.

End Shell.

Lemma chat_after_download_witness :
  let io := {| ModelUtils.existsDirFault := None;
               ModelUtils.mkdirFault := None;
               ModelUtils.existsFileFault := None;
               ModelUtils.network := {| RNFS.reports := []; RNFS.outcome := JS.Ok 200%Z |} |} in
  let shell := {| App.isLoading := false; App.modelPath := None;
                  App.error := Some App.noModelsError |} in
  let path := "/storage/app/files/models/test.gguf" in
  (ModelDownloader.onPressDownload Samples.android Samples.testModel ∅ io
     ModelDownloader.initial Samples.emptyDisk).2
  = [ModelDownloader.DownloadComplete Samples.testModel path]
  /\ App.render (App.onModelDownloaded path shell) = App.ChatScreen path.
Proof.
  intros io shell path.
  assert (H : (ModelDownloader.onPressDownload Samples.android Samples.testModel ∅ io
                 ModelDownloader.initial Samples.emptyDisk).2
              = [ModelDownloader.DownloadComplete Samples.testModel path])
    by (vm_compute; reflexivity).
  split; [exact H|].
  exact (proj1 (proj2 (proj2 (chat_after_download Samples.android Samples.testModel ∅ io
                                ModelDownloader.initial shell Samples.emptyDisk
                                path eq_refl H)))).
Defined.

(** ** A report without a length *)

Section ZeroLength.
Import JS ModelUtils ModelDownloader.

(** X18: When the transport reports a length of zero the fraction is not a
    number or infinite: with no byte written the item shows 0%, the NaN
    being replaced by 0; with bytes written it shows an infinite
    percentage. *)
Theorem progress_zero_length (res : RNFS.DownloadProgress) (item : ModelInfo)
    (captured : gmap string number) (seen : list number) (s0 : State) :
  RNFS.contentLength res = 0%Z ->
  (0 <= RNFS.bytesWritten res)%Z ->
  renderModelItem item (onProgress item (progress res) (downloading item captured seen s0))
  = ProgressText (if (RNFS.bytesWritten res =? 0)%Z then of_Z 0 else PosInf).
Proof.
  intros Hlen Hbytes. unfold renderModelItem, onProgress.
  cbn [setDownloadProgress currentlyDownloading downloadProgress].
  rewrite downloading_marker, String.eqb_refl, lookup_insert_eq.
  unfold progress, div_Z. rewrite Hlen. cbn [Z.eqb].
  destruct (Z.eqb_spec (RNFS.bytesWritten res) 0) as [_|Hne]; [reflexivity|].
  destruct (Z.ltb_spec 0 (RNFS.bytesWritten res)); [reflexivity|lia].
Qed.

Lemma progress_zero_length_witness :
  let res := {| RNFS.bytesWritten := 4096; RNFS.contentLength := 0 |} in
  renderModelItem Samples.testModel
    (onProgress Samples.testModel (progress res)
       (downloading Samples.testModel ∅ [] initial))
  = ProgressText PosInf.
Proof.
  intros res.
  refine (progress_zero_length res Samples.testModel ∅ [] initial eq_refl _).
  cbn. lia.
Defined.

End ZeroLength.
